(** * Block-lag monitors: metrics aggregation, ETA estimation and the
    ChainList name cache

    Shallow embedding of
    - [tools/block-lag-monitor/blocklag_monitor.py]      (module [LatencyMonitor], [Chainlist])
    - [tools/block-lag-monitor/blocklag_monitor_avax.py] (module [AvaxMonitor], [Chainlist])

    Conventions of the embedding.
    - Python [int] is [Z]; a finite Python [float] is an exact rational
      [Qc] (rounding of binary64 arithmetic is not modelled); the special
      floats ([inf], [nan]) appear only where the source can produce or
      read them, through [Py.pyfloat].
    - A Python [dict] keyed by endpoint name is a [gmap string _].
    - A call that may raise returns [Py.res]; [try/except] is written out.
    - Every method of the monitors runs under [self._lock], so a run of the
      worker threads is a sequence of method calls; the embedding is that
      sequence. *)

From Stdlib Require Import ZArith QArith Qcanon Ascii String Lia.
From stdpp Require Import base numbers option list strings pretty gmap.

Local Open Scope Z_scope.

(** ** Python values and primitives used by the scripts *)
Module Py.

Inductive exn : Set :=
  | KeyError | IndexError | ValueError | OverflowError | ZeroDivisionError
  | AssertionError
  | URLError | HTTPError | TimeoutError | JSONDecodeError
  | OSError.

Inductive res (A : Type) : Type :=
  | Ret (a : A)
  | Raise (e : exn).
Arguments Ret {A} a.
Arguments Raise {A} e.

#[global] Instance res_ret : MRet res := @Ret.
#[global] Instance res_bind : MBind res := λ A B f x,
  match x with
  | Ret a => f a
  | Raise e => Raise e
  end.

(** Python floats that are not finite. *)
Inductive pyfloat : Type :=
  | Finite (q : Qc)
  | PosInf
  | NegInf
  | NaN.

(** [int(x)] on a finite float truncates toward zero. *)
Definition int_of_float (x : Qc) : Z := Z.quot (Qnum x) (Zpos (Qden x)).

(** implicit [int -> float] promotion in mixed arithmetic *)
Definition float_of_int (n : Z) : Qc := Qc_of_Z n.

Definition fle (x y : Qc) : bool := Qle_bool x y.
Definition flt (x y : Qc) : bool := negb (Qle_bool y x).

(** [x / y] on floats *)
Definition fdiv (x y : Qc) : res Qc :=
  if Qeq_bool y 0 then Raise ZeroDivisionError else Ret (x / y)%Qc.

(** [l[start:]] *)
Definition slice_from {A} (start : Z) (l : list A) : list A :=
  let n := Z.of_nat (length l) in
  let s := if start <? 0 then Z.max 0 (start + n) else Z.min start n in
  drop (Z.to_nat s) l.

(** [l[0]] and [l[-1]] *)
Definition item_first {A} (l : list A) : res A :=
  match l with
  | x :: _ => Ret x
  | [] => Raise IndexError
  end.

Definition item_last {A} (l : list A) : res A :=
  match list.last l with
  | Some x => Ret x
  | None => Raise IndexError
  end.

(** [d.setdefault(k, v)] (the returned value is never used by the scripts) *)
Definition setdefault `{Countable K} {V} (k : K) (v : V) (d : gmap K V) : gmap K V :=
  match d !! k with
  | Some _ => d
  | None => <[k:=v]> d
  end.

(** [d[k]] *)
Definition getitem `{Countable K} {V} (d : gmap K V) (k : K) : res V :=
  match d !! k with
  | Some v => Ret v
  | None => Raise KeyError
  end.

(** [d[k] = f(d[k])], the shape of [d[k] += v] and [d[k].append(v)] *)
Definition update_item `{Countable K} {V} (f : V → V) (k : K) (d : gmap K V) : res (gmap K V) :=
  match d !! k with
  | Some v => Ret (<[k:=f v]> d)
  | None => Raise KeyError
  end.

End Py.

Import Py.

(** Result of an ETA estimate: [Union[str, float]]. *)
Inductive eta : Type :=
  | Status (msg : string)
  | Number (x : pyfloat).

Definition is_number (r : res eta) : bool :=
  match r with
  | Ret (Number _) => true
  | _ => false
  end.

(** The literal [10_000] bounding each endpoint's history. *)
Definition history_cap : Z := 10000.

(** [h.append(x); if len(h) > cap: h = h[-cap:]] *)
Definition append_bounded {A} (cap : Z) (x : A) (h : list A) : list A :=
  let h := h ++ [x] in
  if cap <? Z.of_nat (length h) then slice_from (- cap) h else h.

(** The arguments of one [update(endpoint, sample_ts, elapsed, lag, block_number)]. *)
Record call : Type := Call {
  c_endpoint : string;
  c_sample_ts : Qc;
  c_elapsed : Qc;
  c_lag : Z;
  c_block_number : Z;
}.

(** The calls of a sequence that name [endpoint], in order. *)
Definition calls_for (endpoint : string) (calls : list call) : list call :=
  List.filter (λ c, bool_decide (c_endpoint c = endpoint)) calls.

(** Running totals as the sequence accumulates them, starting from [0.0] and [0]. *)
Definition cumulative_elapsed (cs : list call) : Qc :=
  foldl (λ acc c, acc + c_elapsed c)%Qc 0%Qc cs.

Definition cumulative_requests (cs : list call) : Z := Z.of_nat (length cs).

(** ** [blocklag_monitor.py]: class [LatencyMonitor] and its worker *)
Module LatencyMonitor.

(** [(timestamp_of_sample, lag_seconds, block_number)] *)
Definition sample : Type := Qc * Z * Z.

Record t : Type := Build {
  total_elapsed : gmap string Qc;
  total_requests : gmap string Z;
  total_lag_seconds : gmap string Qc;
  total_blocks : gmap string Z;
  lag_history : gmap string (list sample);
  last_block_numbers : gmap string Z;
}.

(** [__init__] *)
Definition init : t :=
  {| total_elapsed := ∅; total_requests := ∅; total_lag_seconds := ∅;
     total_blocks := ∅; lag_history := ∅; last_block_numbers := ∅ |}.

(** [update], with the history bound as a parameter. *)
Definition update_cap (cap : Z) (m : t) (endpoint : string)
    (sample_ts elapsed : Qc) (lag_seconds block_number : Z) : res t :=
  let te := setdefault endpoint 0%Qc (total_elapsed m) in
  let tr := setdefault endpoint 0 (total_requests m) in
  let tl := setdefault endpoint 0%Qc (total_lag_seconds m) in
  let tb := setdefault endpoint 0 (total_blocks m) in
  let lh := setdefault endpoint [] (lag_history m) in
  let lb := <[endpoint:=block_number]> (last_block_numbers m) in
  te ← update_item (λ x, x + elapsed)%Qc endpoint te;
  tr ← update_item (λ n, n + 1) endpoint tr;
  tl ← update_item (λ x, x + float_of_int lag_seconds)%Qc endpoint tl;
  tb ← update_item (λ n, n + 1) endpoint tb;
  lh ← update_item
         (append_bounded cap (sample_ts, lag_seconds, block_number)) endpoint lh;
  mret {| total_elapsed := te; total_requests := tr; total_lag_seconds := tl;
          total_blocks := tb; lag_history := lh; last_block_numbers := lb |}.

Definition update : t → string → Qc → Qc → Z → Z → res t :=
  update_cap history_cap.


(** A sequence of [update] calls, in the order the lock serialises them. *)
Definition record_all (cap : Z) (calls : list call) (m : t) : res t :=
  foldl (λ rm c, m ← rm;
           update_cap cap m (c_endpoint c) (c_sample_ts c) (c_elapsed c)
             (c_lag c) (c_block_number c))
        (Ret m) calls.

Definition sample_of (c : call) : sample := (c_sample_ts c, c_lag c, c_block_number c).

Definition history (m : t) (endpoint : string) : list sample :=
  default [] (lag_history m !! endpoint).

Definition avg_latency_ms (m : t) (endpoint : string) : res Qc :=
  match total_requests m !! endpoint with
  | None | Some 0 => Ret 0%Qc
  | Some _ =>
      te ← getitem (total_elapsed m) endpoint;
      tr ← getitem (total_requests m) endpoint;
      q ← fdiv te (float_of_int tr);
      mret (q * float_of_int 1000)%Qc
  end.

Definition avg_block_lag_seconds (m : t) (endpoint : string) : res Qc :=
  match total_blocks m !! endpoint with
  | None | Some 0 => Ret 0%Qc
  | Some _ =>
      tl ← getitem (total_lag_seconds m) endpoint;
      tb ← getitem (total_blocks m) endpoint;
      fdiv tl (float_of_int tb)
  end.

(** [window = [(t, lag) for (t, lag, _bn) in hist if now - t <= window_s]] *)
Definition window_of (hist : list sample) (window_s : Z) (now : Qc) : list (Qc * Z) :=
  (λ s : sample, (s.1.1, s.1.2)) <$>
  List.filter (λ s : sample, fle (now - s.1.1)%Qc (float_of_int window_s)) hist.

(** [estimate_sync_time]; [now] is the value read from [time.time()]. *)
Definition estimate_sync_time (m : t) (endpoint : string) (window_s : Z)
    (now : Qc) : res eta :=
  let hist := history m endpoint in
  if (length hist <? 3)%nat then Ret (Status "Not enough data") else
  let window := window_of hist window_s now in
  if (length window <? 3)%nat then Ret (Status "Not enough data") else
  '(t0, lag0) ← item_first window;
  '(t1, lag1) ← item_last window;
  let dt := (t1 - t0)%Qc in
  if fle dt 0%Qc then Ret (Status "Not enough data") else
  let dlag := lag0 - lag1 in
  if dlag <=? 0 then Ret (Status "Block lag not decreasing") else
  rate ← fdiv (float_of_int dlag) dt;
  if fle rate 0%Qc then Ret (Status "Block lag not decreasing") else
  x ← fdiv (float_of_int lag1) rate;
  mret (Number (Finite x)).

(** The part of [w3.eth.get_block("latest", False)] the worker reads. *)
Record block : Type := { timestamp : Z; number : Z }.

(** One pass through the loop body of [poll_latest_block]: [t0] and [t1]
    are the two clock readings around the request, [resp] its outcome.
    An exception in the body is logged and the monitor is left as it was. *)
Definition poll_once (name : string) (t0 : Qc) (resp : res block) (t1 : Qc)
    (monitor : t) : t :=
  let body :=
    block ← resp;
    let elapsed := (t1 - t0)%Qc in
    let lag := int_of_float t1 - timestamp block in
    let bn := number block in
    update monitor name t1 elapsed lag bn in
  match body with
  | Ret monitor' => monitor'
  | Raise _ => monitor
  end.

(** What one loop iteration observes: the clock at the loop test, then the
    readings and the response of the body. The [time.sleep(rate)] closing
    the iteration shows in the next iteration's clock. *)
Record iteration : Type := {
  it_clock : Qc;
  it_t0 : Qc;
  it_resp : res block;
  it_t1 : Qc;
}.

(** [poll_latest_block] along a finite observation trace. *)
Fixpoint poll_latest_block (name : string) (stop_at : Qc) (trace : list iteration)
    (monitor : t) : t :=
  match trace with
  | [] => monitor
  | it :: trace =>
      if flt (it_clock it) stop_at
      then poll_latest_block name stop_at trace
             (poll_once name (it_t0 it) (it_resp it) (it_t1 it) monitor)
      else monitor
  end.

End LatencyMonitor.

(** ** [blocklag_monitor_avax.py]: class [AvaxMonitor] and its worker *)
Module AvaxMonitor.

(** [(sample_ts, lag_seconds)] *)
Definition sample : Type := Qc * Z.

Record t : Type := Build {
  total_elapsed : gmap string Qc;
  total_requests : gmap string Z;
  total_lag : gmap string Qc;
  total_blocks : gmap string Z;
  lag_history : gmap string (list sample);
  latest_blocks : gmap string Z;
}.

(** [__init__] *)
Definition init : t :=
  {| total_elapsed := ∅; total_requests := ∅; total_lag := ∅;
     total_blocks := ∅; lag_history := ∅; latest_blocks := ∅ |}.

(** [update], with the history bound as a parameter. *)
Definition update_cap (cap : Z) (m : t) (endpoint : string)
    (sample_ts elapsed : Qc) (lag block_number : Z) : res t :=
  let te := setdefault endpoint 0%Qc (total_elapsed m) in
  let tr := setdefault endpoint 0 (total_requests m) in
  let tl := setdefault endpoint 0%Qc (total_lag m) in
  let tb := setdefault endpoint 0 (total_blocks m) in
  let lh := setdefault endpoint [] (lag_history m) in
  te ← update_item (λ x, x + elapsed)%Qc endpoint te;
  tr ← update_item (λ n, n + 1) endpoint tr;
  tl ← update_item (λ x, x + float_of_int lag)%Qc endpoint tl;
  tb ← update_item (λ n, n + 1) endpoint tb;
  lh ← update_item (append_bounded cap (sample_ts, lag)) endpoint lh;
  mret {| total_elapsed := te; total_requests := tr; total_lag := tl;
          total_blocks := tb; lag_history := lh;
          latest_blocks := <[endpoint:=block_number]> (latest_blocks m) |}.

Definition update : t → string → Qc → Qc → Z → Z → res t :=
  update_cap history_cap.


(** A sequence of [update] calls, in the order the lock serialises them. *)
Definition record_all (cap : Z) (calls : list call) (m : t) : res t :=
  foldl (λ rm c, m ← rm;
           update_cap cap m (c_endpoint c) (c_sample_ts c) (c_elapsed c)
             (c_lag c) (c_block_number c))
        (Ret m) calls.

Definition sample_of (c : call) : sample := (c_sample_ts c, c_lag c).

Definition history (m : t) (endpoint : string) : list sample :=
  default [] (lag_history m !! endpoint).

Definition avg_latency_ms (m : t) (endpoint : string) : res Qc :=
  let req := default 0 (total_requests m !! endpoint) in
  if req =? 0 then Ret 0%Qc else
  te ← getitem (total_elapsed m) endpoint;
  q ← fdiv te (float_of_int req);
  mret (q * float_of_int 1000)%Qc.

Definition avg_block_lag_seconds (m : t) (endpoint : string) : res Qc :=
  let cnt := default 0 (total_blocks m !! endpoint) in
  if cnt =? 0 then Ret 0%Qc else
  tl ← getitem (total_lag m) endpoint;
  fdiv tl (float_of_int cnt).

(** [points = hist[-window_samples:] if len(hist) > window_samples else hist] *)
Definition points_of (hist : list sample) (window_samples : Z) : list sample :=
  if window_samples <? Z.of_nat (length hist)
  then slice_from (- window_samples) hist
  else hist.

Definition estimate_sync_time (m : t) (endpoint : string)
    (target_lag_s window_samples : Z) : res eta :=
  let hist := history m endpoint in
  if (length hist <? 3)%nat then Ret (Status "Not enough data") else
  let points := points_of hist window_samples in
  '(_, cur_lag) ← item_last points;
  if cur_lag <=? target_lag_s then Ret (Status "SYNCED") else
  '(t_first, lag_first) ← item_first points;
  '(t_last, lag_last) ← item_last points;
  let dt := (t_last - t_first)%Qc in
  if fle dt 0%Qc then Ret (Status "Not enough data") else
  slope ← fdiv (float_of_int (lag_last - lag_first)) dt;
  if fle 0%Qc slope then Ret (Status "Lag stable/increasing") else
  let remaining := cur_lag - target_lag_s in
  let rate := (- slope)%Qc in
  if flt 0%Qc rate
  then x ← fdiv (float_of_int remaining) rate; mret (Number (Finite x))
  else Ret (Number PosInf).

Record block : Type := { timestamp : Z; number : Z }.

(** One pass through the loop body of [poll_latest_block]. *)
Definition poll_once (name : string) (t0 : Qc) (resp : res block) (t1 : Qc)
    (monitor : t) : t :=
  let body :=
    block ← resp;
    let elapsed := (t1 - t0)%Qc in
    let block_ts := timestamp block in
    let lag := Z.max 0 (int_of_float t1 - block_ts) in
    let block_no := number block in
    update monitor name t1 elapsed lag block_no in
  match body with
  | Ret monitor' => monitor'
  | Raise _ => monitor
  end.

Record iteration : Type := {
  it_clock : Qc;
  it_t0 : Qc;
  it_resp : res block;
  it_t1 : Qc;
}.

(** [poll_latest_block] along a finite observation trace. *)
Fixpoint poll_latest_block (name : string) (stop : Qc) (trace : list iteration)
    (monitor : t) : t :=
  match trace with
  | [] => monitor
  | it :: trace =>
      if flt (it_clock it) stop
      then poll_latest_block name stop trace
             (poll_once name (it_t0 it) (it_resp it) (it_t1 it) monitor)
      else monitor
  end.

End AvaxMonitor.

(** ** ChainList name cache ([load_chainlist_name_map] and its helpers,
    identical in both scripts) *)
Module Chainlist.

(** What [json.loads] returns. A [JDict] lists the items of the dictionary
    in order, with distinct keys. *)
#[local] Set Warnings "-register-all".
Inductive json : Type :=
  | JNull
  | JBool (b : bool)
  | JInt (n : Z)
  | JFloat (x : pyfloat)
  | JStr (s : string)
  | JList (l : list json)
  | JDict (d : list (string * json)).

(** Truth value of an object, as [or] and [if] test it. *)
Definition truthy (j : json) : bool :=
  match j with
  | JNull => false
  | JBool b => b
  | JInt n => negb (n =? 0)
  | JFloat (Finite q) => negb (Qeq_bool q 0)
  | JFloat _ => true
  | JStr s => negb (String.eqb s "")
  | JList l => match l with [] => false | _ => true end
  | JDict d => match d with [] => false | _ => true end
  end.

(** [a or b] *)
Definition py_or (a b : json) : json := if truthy a then a else b.

(** [d.get(key)] *)
Fixpoint dict_get (d : list (string * json)) (key : string) : json :=
  match d with
  | [] => JNull
  | (k, v) :: d => if String.eqb k key then v else dict_get d key
  end.

(** [s.isdigit()], on ASCII text. *)
Definition is_ascii_digit (c : ascii) : bool :=
  let n := nat_of_ascii c in (48 <=? n)%nat && (n <=? 57)%nat.

Fixpoint all_digits (s : string) : bool :=
  match s with
  | EmptyString => true
  | String c s => is_ascii_digit c && all_digits s
  end.

Definition isdigit (s : string) : bool :=
  match s with
  | EmptyString => false
  | _ => all_digits s
  end.

(** [int(s)] for a string of decimal digits. *)
Fixpoint int_of_digits_from (acc : Z) (s : string) : Z :=
  match s with
  | EmptyString => acc
  | String c s => int_of_digits_from (10 * acc + Z.of_nat (nat_of_ascii c - 48)) s
  end.

Definition int_of_digits (s : string) : Z := int_of_digits_from 0 s.

(** [s.strip()], on ASCII text: tab, line feed, vertical tab, form feed,
    carriage return, the four separators 28..31 and space. *)
Definition is_space (c : ascii) : bool :=
  let n := nat_of_ascii c in
  ((9 <=? n)%nat && (n <=? 13)%nat) || ((28 <=? n)%nat && (n <=? 32)%nat).

Fixpoint lstrip (s : string) : string :=
  match s with
  | EmptyString => EmptyString
  | String c s' => if is_space c then lstrip s' else s
  end.

Definition strip (s : string) : string :=
  String.rev (lstrip (String.rev (lstrip s))).

(** [bool(d)] for a dictionary *)
Definition nonempty (m : gmap Z string) : bool := negb (bool_decide (m = ∅)).

(** The loop body of [_build_chainid_to_name] on one [item]. *)
Definition add_item (out : gmap Z string) (item : json) : gmap Z string :=
  match item with
  | JDict item =>
      let cid := dict_get item "chainId" in
      let name := py_or (py_or (dict_get item "name") (dict_get item "chain"))
                        (dict_get item "shortName") in
      match name with
      | JStr name =>
          if negb (String.eqb (strip name) "") then
            match cid with
            | JInt cid => <[cid:=strip name]> out
            | JBool b => <[Z.b2z b:=strip name]> out
            | JStr cid =>
                if isdigit cid then <[int_of_digits cid:=strip name]> out else out
            | _ => out
            end
          else out
      | _ => out
      end
  | _ => out
  end.

(** The [for key in ("chains", "data", "result")] loop. *)
Fixpoint first_list (payload : list (string * json)) (keys : list string)
    : option (list json) :=
  match keys with
  | [] => None
  | key :: keys =>
      match dict_get payload key with
      | JList maybe => Some maybe
      | _ => first_list payload keys
      end
  end.

Definition _build_chainid_to_name (payload : json) : gmap Z string :=
  match payload with
  | JList items => foldl add_item ∅ items
  | JDict payload =>
      match first_list payload ["chains"; "data"; "result"] with
      | Some maybe => foldl add_item ∅ maybe
      | None => ∅
      end
  | _ => ∅
  end.

(** The file at [cache_path]: absent, or present with the outcome of
    [json.loads(cache_path.read_text())]. *)
Inductive file : Type :=
  | Missing
  | Content (parsed : res json).

(** Everything outside the process that [load_chainlist_name_map] touches.
    The clock moves by the lengths slept; [url] and [timeout_s] reach
    [urlopen] only, whose outcome is [w_net]. *)
Record world : Type := World {
  w_clock : Qc;             (* the value [time.time()] returns *)
  w_cache : file;           (* the cache file *)
  w_writable : bool;        (* whether [mkdir] and [write_text] succeed *)
  w_net : nat → res json;   (* outcome of the n-th request: urlopen, read, json.loads *)
  w_attempts : nat;         (* requests issued so far *)
  w_slept : list Qc;        (* arguments of the [time.sleep] calls so far, latest first *)
}.

(** The exceptions the retry loop catches. *)
Definition retryable (e : exn) : bool :=
  match e with
  | URLError | HTTPError | TimeoutError | JSONDecodeError => true
  | _ => false
  end.

(** The [for attempt in range(1, attempts + 1)] loop of
    [_fetch_json_with_retries], entered with [remaining] iterations to go. *)
Fixpoint fetch_loop (remaining : nat) (attempt attempts : Z) (backoff_base_s : Qc)
    (last_err : option exn) (w : world) : res json * world :=
  match remaining with
  | O =>
      (* assert last_err is not None; raise last_err *)
      (Raise (default AssertionError last_err), w)
  | S remaining =>
      let w1 := World (w_clock w) (w_cache w) (w_writable w) (w_net w)
                      (S (w_attempts w)) (w_slept w) in
      match w_net w (w_attempts w) with
      | Ret payload => (Ret payload, w1)
      | Raise e =>
          if retryable e then
            if attempt <? attempts then
              let sleep_s := (backoff_base_s * float_of_int (2 ^ (attempt - 1)))%Qc in
              if flt sleep_s 0%Qc then
                (* time.sleep rejects a negative length *)
                (Raise ValueError, w1)
              else
                fetch_loop remaining (attempt + 1) attempts backoff_base_s (Some e)
                  (World (w_clock w + sleep_s)%Qc (w_cache w) (w_writable w) (w_net w)
                         (S (w_attempts w)) (sleep_s :: w_slept w))
            else
              fetch_loop remaining (attempt + 1) attempts backoff_base_s (Some e) w1
          else (Raise e, w1)
      end
  end.

Definition _fetch_json_with_retries (url : string) (timeout_s retries : Z)
    (backoff_base_s : Qc) (w : world) : res json * world :=
  let attempts := retries + 1 in
  fetch_loop (Z.to_nat attempts) 1 attempts backoff_base_s None w.

(** The dictionary comprehension that rebuilds [cached_map] from ["data"]. *)
Definition cached_entry (out : gmap Z string) (kv : string * json) : gmap Z string :=
  match kv.2 with
  | JStr v =>
      if isdigit kv.1 && negb (String.eqb (strip v) "")
      then <[int_of_digits kv.1:=strip v]> out
      else out
  | _ => out
  end.

(** [int(x)] guarded by
    [isinstance(x, (int, float)) or (isinstance(x, str) and x.isdigit())]. *)
Definition int_field (x : json) : res (option Z) :=
  match x with
  | JInt n => Ret (Some n)
  | JBool b => Ret (Some (Z.b2z b))
  | JFloat (Finite q) => Ret (Some (int_of_float q))
  | JFloat NaN => Raise ValueError
  | JFloat _ => Raise OverflowError
  | JStr s => if isdigit s then Ret (Some (int_of_digits s)) else Ret None
  | _ => Ret None
  end.

(** The three locals the cache read leaves behind. *)
Record cached : Type := Cached {
  cached_map : gmap Z string;
  cached_fetched_at : option Z;
  cached_ttl : option Z;
}.

(** The [try: ... except Exception] block that reads the cache. An exception
    leaves the locals as they were when it was raised. *)
Definition read_cache (f : file) : cached :=
  match f with
  | Content (Ret (JDict cache_obj)) =>
      match dict_get cache_obj "data" with
      | JDict data =>
          let cm := foldl cached_entry ∅ data in
          match int_field (dict_get cache_obj "fetched_at") with
          | Raise _ => Cached cm None None
          | Ret fa =>
              match int_field (dict_get cache_obj "ttl") with
              | Raise _ => Cached cm fa None
              | Ret ct => Cached cm fa ct
              end
          end
      | _ => Cached ∅ None None
      end
  | _ => Cached ∅ None None
  end.

(** The test guarding [return cached_map]. *)
Definition cache_fresh (c : cached) (ttl_s : Z) (now : Qc) : bool :=
  match cached_fetched_at c with
  | Some fa =>
      nonempty (cached_map c) &&
      (let effective_ttl := default ttl_s (cached_ttl c) in
       let age := int_of_float now - fa in
       age <=? effective_ttl)
  | None => false
  end.

(** The object written back to the cache file. *)
Definition cache_obj (url : string) (now : Qc) (ttl_s : Z) (mapping : gmap Z string)
    : json :=
  JDict [("source", JStr url);
         ("fetched_at", JInt (int_of_float now));
         ("ttl", JInt ttl_s);
         ("data", JDict ((λ kv : Z * string, (pretty kv.1, JStr kv.2))
                          <$> map_to_list mapping))].

(** The block under the comment "Otherwise fetch". *)
Definition fetch_and_store (c : cached) (url : string) (ttl_s timeout_s retries : Z)
    (backoff_base_s : Qc) (allow_stale_cache : bool) (w : world)
    : res (gmap Z string) * world :=
  match _fetch_json_with_retries url timeout_s retries backoff_base_s w with
  | (Ret payload, w) =>
      let mapping := _build_chainid_to_name payload in
      if nonempty mapping && w_writable w then
        (Ret mapping,
         World (w_clock w) (Content (Ret (cache_obj url (w_clock w) ttl_s mapping)))
               (w_writable w) (w_net w) (w_attempts w) (w_slept w))
      else (Ret mapping, w)
  | (Raise _, w) =>
      if allow_stale_cache && nonempty (cached_map c)
      then (Ret (cached_map c), w)
      else (Ret ∅, w)
  end.

Definition load_chainlist_name_map (url : string) (ttl_s timeout_s retries : Z)
    (backoff_base_s : Qc) (allow_stale_cache : bool) (w : world)
    : res (gmap Z string) * world :=
  let c := read_cache (w_cache w) in
  if cache_fresh c ttl_s (w_clock w) then (Ret (cached_map c), w)
  else fetch_and_store c url ttl_s timeout_s retries backoff_base_s allow_stale_cache w.

End Chainlist.

(** ** Notions used to state the properties *)

(** One call's effect on one dictionary of a monitor: the entry of the
    call's endpoint, created with [d] if missing, is updated by [f]. *)
Definition bump {V} (f : call → V → V) (d : V) (m : gmap string V) (c : call)
    : gmap string V :=
  <[c_endpoint c:=f c (default d (m !! c_endpoint c))]> m.

(** The entry a dictionary holds after the calls [cs] of one endpoint. *)
Definition tally {V} (f : call → V → V) (d : V) (cs : list call) : option V :=
  match cs with
  | [] => None
  | _ => Some (foldl (λ v c, f c v) d cs)
  end.

(** The average the aggregators report: the running totals' quotient, scaled
    to milliseconds, and [0.0] before the first sample. *)
Definition mean_latency_ms (cs : list call) : Qc :=
  match cs with
  | [] => 0
  | _ => cumulative_elapsed cs / float_of_int (cumulative_requests cs)
         * float_of_int 1000
  end%Qc.

(** The unscaled quotient of the running totals. *)
Definition mean_latency (cs : list call) : Qc :=
  match cs with
  | [] => 0
  | _ => cumulative_elapsed cs / float_of_int (cumulative_requests cs)
  end%Qc.

(** The lag strictly decreased from the first to the last sample of the
    window, over a strictly positive time span. *)
Definition window_decreasing (window : list (Qc * Z)) : Prop :=
  ∃ t0 lag0 t1 lag1,
    head window = Some (t0, lag0) ∧ last window = Some (t1, lag1) ∧
    lag1 < lag0 ∧ (t0 < t1)%Qc.

(** Every lag in every history of the monitor is non-negative. *)
Definition avax_lags_nonneg (m : AvaxMonitor.t) : Prop :=
  ∀ e, Forall (λ s : AvaxMonitor.sample, 0 ≤ s.2) (AvaxMonitor.history m e).

(** A request that always fails with [URLError]. *)
Definition net_down : nat → res Chainlist.json := λ _, Raise URLError.

(** A cache file holding one name, fetched at second 1000 with a TTL of 60. *)
Definition cache_one_name : Chainlist.file :=
  Chainlist.Content (Ret (Chainlist.JDict
    [("source", Chainlist.JStr "https://chainlist.org/rpcs.json");
     ("fetched_at", Chainlist.JInt 1000);
     ("ttl", Chainlist.JInt 60);
     ("data", Chainlist.JDict [("1", Chainlist.JStr "Ethereum Mainnet")])])).

(** ** Display helpers ([seconds_to_human_readable], [chain_name_from_chain_id],
    [chain_name_from_id]) *)

(** An argument of type [Union[int, float]]. *)
Inductive number : Type :=
  | NInt (n : Z)
  | NFloat (x : pyfloat).

(** The three [divmod] calls: [(days, hours, minutes, secs)]. *)
Definition split_seconds (total : Z) : Z * Z * Z * Z :=
  let days := total / 86400 in
  let rem := total mod 86400 in
  let hours := rem / 3600 in
  let rem := rem mod 3600 in
  let minutes := rem / 60 in
  let secs := rem mod 60 in
  (days, hours, minutes, secs).

(** [total = int(seconds)], clamped at zero; [None] for [inf] and [nan],
    which return before [int] is reached. *)
Definition whole_seconds (seconds : number) : option Z :=
  match seconds with
  | NInt n => Some (if n <? 0 then 0 else n)
  | NFloat (Finite q) =>
      let total := int_of_float q in
      Some (if total <? 0 then 0 else total)
  | NFloat _ => None
  end.

Definition seconds_to_human_readable (seconds : number) : string :=
  match whole_seconds seconds with
  | None => "∞"
  | Some total =>
      let '(days, hours, minutes, secs) := split_seconds total in
      if negb (days =? 0) then
        pretty days +:+ "d " +:+ pretty hours +:+ "h " +:+ pretty minutes +:+ "m "
          +:+ pretty secs +:+ "s"
      else if negb (hours =? 0) then
        pretty hours +:+ "h " +:+ pretty minutes +:+ "m " +:+ pretty secs +:+ "s"
      else if negb (minutes =? 0) then
        pretty minutes +:+ "m " +:+ pretty secs +:+ "s"
      else pretty secs +:+ "s"
  end.

(** The [static] table of [chain_name_from_chain_id] in [blocklag_monitor.py]. *)
Definition static_names : gmap Z string :=
  list_to_map
    [(1, "Ethereum Mainnet"); (5, "Goerli"); (11155111, "Sepolia");
     (56, "BNB Smart Chain"); (97, "BNB Testnet"); (137, "Polygon Mainnet");
     (80001, "Mumbai"); (43114, "Avalanche C-Chain"); (43113, "Avalanche Fuji");
     (10, "Optimism"); (8453, "Base"); (42161, "Arbitrum One");
     (42170, "Arbitrum Nova"); (421614, "Arbitrum Sepolia")].

(** The [mapping] table of [chain_name_from_id] in [blocklag_monitor_avax.py]. *)
Definition avax_static_names : gmap Z string :=
  list_to_map
    [(43114, "Avalanche C-Chain Mainnet"); (43113, "Avalanche Fuji Testnet");
     (1, "Ethereum Mainnet"); (5, "Goerli"); (11155111, "Sepolia")].

(** Both lookups, over their table; [CHAINLIST_NAME_BY_ID] is the module
    global the loader's result is stored in. *)
Definition chain_name_in (table CHAINLIST_NAME_BY_ID : gmap Z string)
    (chain_id : option Z) : string :=
  match chain_id with
  | Some id =>
      match CHAINLIST_NAME_BY_ID !! id with
      | Some name => name
      | None => default "Unknown" (table !! id)
      end
  | None => "Unknown"
  end.

Definition chain_name_from_chain_id : gmap Z string → option Z → string :=
  chain_name_in static_names.

Definition chain_name_from_id : gmap Z string → option Z → string :=
  chain_name_in avax_static_names.

(** ** Notions used to state further properties *)

(** The iterations a worker runs: those before the first clock reading that
    is not below the deadline. *)
Fixpoint live_prefix {A} (alive : A → bool) (trace : list A) : list A :=
  match trace with
  | [] => []
  | it :: trace => if alive it then it :: live_prefix alive trace else []
  end.

(** The [update] call a successful iteration of each worker makes. *)
Definition latency_call_of (name : string) (it : LatencyMonitor.iteration)
    : option call :=
  match LatencyMonitor.it_resp it with
  | Ret b =>
      Some (Call name (LatencyMonitor.it_t1 it)
              (LatencyMonitor.it_t1 it - LatencyMonitor.it_t0 it)%Qc
              (int_of_float (LatencyMonitor.it_t1 it) - LatencyMonitor.timestamp b)
              (LatencyMonitor.number b))
  | Raise _ => None
  end.

Definition avax_call_of (name : string) (it : AvaxMonitor.iteration) : option call :=
  match AvaxMonitor.it_resp it with
  | Ret b =>
      Some (Call name (AvaxMonitor.it_t1 it)
              (AvaxMonitor.it_t1 it - AvaxMonitor.it_t0 it)%Qc
              (Z.max 0 (int_of_float (AvaxMonitor.it_t1 it) - AvaxMonitor.timestamp b))
              (AvaxMonitor.number b))
  | Raise _ => None
  end.

(** Sum of the lags as [update] accumulates it. *)
Definition cumulative_lag (cs : list call) : Qc :=
  foldl (λ acc c, acc + float_of_int (c_lag c))%Qc 0%Qc cs.

Definition mean_lag (cs : list call) : Qc :=
  match cs with
  | [] => 0
  | _ => cumulative_lag cs / float_of_int (cumulative_requests cs)
  end%Qc.

(** A name as the loaders store it: not empty, with nothing to strip. *)
Definition clean_name (v : string) : Prop := v ≠ "" ∧ Chainlist.strip v = v.

(** The lengths slept when [n] attempts in a row fail, the first of them
    being attempt number [attempt], in the order they are slept:
    [backoff * 2^(attempt-1), backoff * 2^attempt, ...]. *)
Definition backoff_schedule (backoff : Qc) (attempt : Z) (n : nat) : list Qc :=
  (λ i : nat, backoff * float_of_int (2 ^ (attempt - 1 + Z.of_nat i)))%Qc <$> seq 0 n.

(** A string that does not start with a character [strip] removes. *)
Definition starts_clean (s : string) : Prop :=
  match s with
  | EmptyString => True
  | String c _ => Chainlist.is_space c = false
  end.

(** * Properties *)

(** ** Dictionaries and bounded lists *)
Section dict_lemmas.
Context {V : Type}.
Implicit Types (m : gmap string V) (k : string) (d : V).

Lemma update_item_setdefault (f : V → V) k d m :
  update_item f k (setdefault k d m) = Ret (<[k:=f (default d (m !! k))]> m).
Proof.
  unfold update_item, setdefault.
  destruct (m !! k) as [v|] eqn:Hk; simpl.
  - by rewrite Hk.
  - by rewrite lookup_insert_eq, insert_insert_eq.
Qed.

Lemma calls_for_snoc e calls c :
  calls_for e (calls ++ [c]) =
  calls_for e calls ++ (if bool_decide (c_endpoint c = e) then [c] else []).
Proof. unfold calls_for. rewrite List.filter_app. simpl. by case_bool_decide. Qed.

Lemma tally_default f d cs :
  default d (tally f d cs) = foldl (λ v c, f c v) d cs.
Proof. by destruct cs. Qed.

Lemma tally_snoc f d cs c :
  tally f d (cs ++ [c]) = Some (f c (default d (tally f d cs))).
Proof.
  rewrite tally_default. unfold tally.
  destruct (cs ++ [c]) eqn:E; [by destruct cs|].
  by rewrite <- E, foldl_app.
Qed.

Lemma bump_fold_lookup f d calls e :
  foldl (bump f d) ∅ calls !! e = tally f d (calls_for e calls).
Proof.
  induction calls as [|c calls IH] using rev_ind; [done|].
  rewrite foldl_app, calls_for_snoc. simpl. unfold bump at 1.
  case_bool_decide as He.
  - subst e. by rewrite lookup_insert_eq, tally_snoc, IH.
  - by rewrite lookup_insert_ne, app_nil_r.
Qed.
End dict_lemmas.

Lemma slice_from_neg {A} (cap : Z) (l : list A) :
  1 ≤ cap → cap < Z.of_nat (length l) →
  slice_from (- cap) l = drop (length l - Z.to_nat cap) l.
Proof.
  intros Hc Hl. unfold slice_from.
  destruct (Z.ltb_spec (- cap) 0) as [_|?]; [|lia].
  f_equal. lia.
Qed.

Lemma append_bounded_drop {A} (cap : Z) (x : A) (h : list A) :
  1 ≤ cap →
  append_bounded cap x h = drop (length (h ++ [x]) - Z.to_nat cap) (h ++ [x]).
Proof.
  intros Hc. unfold append_bounded.
  destruct (Z.ltb_spec cap (Z.of_nat (length (h ++ [x])))) as [Hlt|Hge].
  - by apply slice_from_neg.
  - by replace (length (h ++ [x]) - Z.to_nat cap)%nat with 0%nat by lia.
Qed.

(** Folding [append_bounded] over a list keeps exactly its last [cap] items. *)
Lemma bounded_fold {A B} (g : B → A) (cap : Z) (cs : list B) :
  1 ≤ cap →
  foldl (λ h c, append_bounded cap (g c) h) [] cs =
  drop (length cs - Z.to_nat cap) (g <$> cs).
Proof.
  intros Hc. induction cs as [|c cs IH] using rev_ind; [done|].
  rewrite foldl_app. simpl. rewrite IH, append_bounded_drop by done.
  rewrite fmap_app. simpl.
  rewrite !length_app, length_drop, length_fmap. simpl.
  destruct (decide (length cs ≤ Z.to_nat cap)%nat) as [Hle|Hgt].
  - replace (length cs - Z.to_nat cap)%nat with 0%nat by lia. simpl.
    f_equal. lia.
  - rewrite drop_app_le by (rewrite length_drop, length_fmap; lia).
    rewrite drop_drop.
    rewrite (drop_app_le (g <$> cs)) by (rewrite length_fmap; lia).
    do 2 f_equal. lia.
Qed.

(** ** The aggregators after a sequence of [update] calls *)

Lemma LatencyMonitor_update_cap_eq cap m e ts el lag bn :
  LatencyMonitor.update_cap cap m e ts el lag bn =
  Ret (LatencyMonitor.Build
    (<[e:=(default 0 (LatencyMonitor.total_elapsed m !! e) + el)%Qc]>
       (LatencyMonitor.total_elapsed m))
    (<[e:=default 0 (LatencyMonitor.total_requests m !! e) + 1]>
       (LatencyMonitor.total_requests m))
    (<[e:=(default 0 (LatencyMonitor.total_lag_seconds m !! e) + float_of_int lag)%Qc]>
       (LatencyMonitor.total_lag_seconds m))
    (<[e:=default 0 (LatencyMonitor.total_blocks m !! e) + 1]>
       (LatencyMonitor.total_blocks m))
    (<[e:=append_bounded cap (ts, lag, bn)
            (default [] (LatencyMonitor.lag_history m !! e))]>
       (LatencyMonitor.lag_history m))
    (<[e:=bn]> (LatencyMonitor.last_block_numbers m))).
Proof.
  unfold LatencyMonitor.update_cap.
  by rewrite !update_item_setdefault.
Qed.

Lemma LatencyMonitor_record_all_eq cap calls :
  LatencyMonitor.record_all cap calls LatencyMonitor.init =
  Ret (LatencyMonitor.Build
    (foldl (bump (λ c x, x + c_elapsed c)%Qc 0%Qc) ∅ calls)
    (foldl (bump (λ _ n, n + 1) 0) ∅ calls)
    (foldl (bump (λ c x, x + float_of_int (c_lag c))%Qc 0%Qc) ∅ calls)
    (foldl (bump (λ _ n, n + 1) 0) ∅ calls)
    (foldl (bump (λ c h, append_bounded cap (LatencyMonitor.sample_of c) h) []) ∅ calls)
    (foldl (λ m c, <[c_endpoint c:=c_block_number c]> m) ∅ calls)).
Proof.
  unfold LatencyMonitor.record_all.
  induction calls as [|c calls IH] using rev_ind; [done|].
  rewrite !foldl_app. simpl. rewrite IH. simpl.
  by rewrite LatencyMonitor_update_cap_eq.
Qed.

Lemma AvaxMonitor_update_cap_eq cap m e ts el lag bn :
  AvaxMonitor.update_cap cap m e ts el lag bn =
  Ret (AvaxMonitor.Build
    (<[e:=(default 0 (AvaxMonitor.total_elapsed m !! e) + el)%Qc]>
       (AvaxMonitor.total_elapsed m))
    (<[e:=default 0 (AvaxMonitor.total_requests m !! e) + 1]>
       (AvaxMonitor.total_requests m))
    (<[e:=(default 0 (AvaxMonitor.total_lag m !! e) + float_of_int lag)%Qc]>
       (AvaxMonitor.total_lag m))
    (<[e:=default 0 (AvaxMonitor.total_blocks m !! e) + 1]>
       (AvaxMonitor.total_blocks m))
    (<[e:=append_bounded cap (ts, lag)
            (default [] (AvaxMonitor.lag_history m !! e))]>
       (AvaxMonitor.lag_history m))
    (<[e:=bn]> (AvaxMonitor.latest_blocks m))).
Proof.
  unfold AvaxMonitor.update_cap.
  by rewrite !update_item_setdefault.
Qed.

Lemma AvaxMonitor_record_all_eq cap calls :
  AvaxMonitor.record_all cap calls AvaxMonitor.init =
  Ret (AvaxMonitor.Build
    (foldl (bump (λ c x, x + c_elapsed c)%Qc 0%Qc) ∅ calls)
    (foldl (bump (λ _ n, n + 1) 0) ∅ calls)
    (foldl (bump (λ c x, x + float_of_int (c_lag c))%Qc 0%Qc) ∅ calls)
    (foldl (bump (λ _ n, n + 1) 0) ∅ calls)
    (foldl (bump (λ c h, append_bounded cap (AvaxMonitor.sample_of c) h) []) ∅ calls)
    (foldl (λ m c, <[c_endpoint c:=c_block_number c]> m) ∅ calls)).
Proof.
  unfold AvaxMonitor.record_all.
  induction calls as [|c calls IH] using rev_ind; [done|].
  rewrite !foldl_app. simpl. rewrite IH. simpl.
  by rewrite AvaxMonitor_update_cap_eq.
Qed.

(** Counting with [+ 1] from [0] gives the number of calls. *)
Lemma count_fold (cs : list call) :
  foldl (λ n (_ : call), n + 1) 0 cs = Z.of_nat (length cs).
Proof.
  induction cs as [|c cs IH] using rev_ind; [done|].
  rewrite foldl_app, length_app. simpl. lia.
Qed.


(** ** Average latency *)

Lemma LatencyMonitor_avg_latency_ms_after cap calls e :
  ∃ m, LatencyMonitor.record_all cap calls LatencyMonitor.init = Ret m ∧
       LatencyMonitor.avg_latency_ms m e = Ret (mean_latency_ms (calls_for e calls)).
Proof.
  rewrite LatencyMonitor_record_all_eq. eexists; split; [done|].
  unfold LatencyMonitor.avg_latency_ms, getitem. simpl.
  rewrite !bump_fold_lookup.
  destruct (calls_for e calls) as [|c cs] eqn:E; [done|].
  unfold tally. rewrite count_fold.
  change (Z.of_nat (length (c :: cs))) with (Z.pos (Pos.of_succ_nat (length cs))).
  reflexivity.
Qed.

Lemma AvaxMonitor_avg_latency_ms_after cap calls e :
  ∃ m, AvaxMonitor.record_all cap calls AvaxMonitor.init = Ret m ∧
       AvaxMonitor.avg_latency_ms m e = Ret (mean_latency_ms (calls_for e calls)).
Proof.
  rewrite AvaxMonitor_record_all_eq. eexists; split; [done|].
  unfold AvaxMonitor.avg_latency_ms, getitem. simpl.
  rewrite !bump_fold_lookup.
  destruct (calls_for e calls) as [|c cs] eqn:E; [done|].
  unfold tally. rewrite count_fold.
  change (Z.of_nat (length (c :: cs))) with (Z.pos (Pos.of_succ_nat (length cs))).
  reflexivity.
Qed.

(** C1 (as amended): after any sequence of [update] calls, and whatever the
    bound that truncates the history, [avg_latency_ms] of either monitor
    returns, for every endpoint, the cumulative elapsed time divided by the
    cumulative request count and multiplied by 1000 (milliseconds), and [0]
    when the endpoint has no recorded request. *)
Theorem C1_avg_latency_from_running_totals (cap : Z) (calls : list call) (e : string) :
  (∃ m, LatencyMonitor.record_all cap calls LatencyMonitor.init = Ret m ∧
        LatencyMonitor.avg_latency_ms m e = Ret (mean_latency_ms (calls_for e calls))) ∧
  (∃ m, AvaxMonitor.record_all cap calls AvaxMonitor.init = Ret m ∧
        AvaxMonitor.avg_latency_ms m e = Ret (mean_latency_ms (calls_for e calls))) ∧
  LatencyMonitor.avg_latency_ms LatencyMonitor.init e = Ret 0%Qc ∧
  AvaxMonitor.avg_latency_ms AvaxMonitor.init e = Ret 0%Qc.
Proof.
  split; [apply LatencyMonitor_avg_latency_ms_after|].
  split; [apply AvaxMonitor_avg_latency_ms_after|].
  done.
Qed.

(** C1 (counterexample): one request that took 1 second. The running totals'
    quotient is 1, [avg_latency_ms] returns 1000. *)
Lemma C1_counterexample :
  ∃ m, LatencyMonitor.update LatencyMonitor.init "node" (Qc_of_Z 0) (Qc_of_Z 1) 0 0 = Ret m ∧
       LatencyMonitor.avg_latency_ms m "node" = Ret (Qc_of_Z 1000) ∧
       mean_latency (calls_for "node" [Call "node" (Qc_of_Z 0) (Qc_of_Z 1) 0 0]) = Qc_of_Z 1 ∧
       Qc_of_Z 1000 ≠ Qc_of_Z 1.
Proof.
  destruct (LatencyMonitor_avg_latency_ms_after history_cap
              [Call "node" (Qc_of_Z 0) (Qc_of_Z 1) 0 0] "node") as (m & Hm & Havg).
  exists m. split; [exact Hm|]. split; [|split].
  - rewrite Havg. f_equal. apply Qc_is_canon. by vm_compute.
  - apply Qc_is_canon. by vm_compute.
  - intros H. by apply (f_equal (λ q : Qc, Qnum q)) in H.
Qed.

(** ** Bounded history *)

Lemma last_drop_lt {A} (l : list A) (n : nat) :
  (n < length l)%nat → last (drop n l) = last l.
Proof.
  intros Hn. rewrite !last_lookup, lookup_drop, length_drop.
  f_equal. lia.
Qed.

Lemma history_after {A} (g : call → A) (calls : list call) (e : string) :
  default [] (foldl (bump (λ c h, append_bounded history_cap (g c) h) []) ∅ calls !! e)
  = drop (length (calls_for e calls) - Z.to_nat history_cap) (g <$> calls_for e calls).
Proof.
  rewrite bump_fold_lookup, tally_default.
  by rewrite bounded_fold.
Qed.

Lemma drop_suffix_facts {A} (all : list A) :
  let hist := drop (length all - Z.to_nat history_cap) all in
  Z.of_nat (length hist) ≤ 10000 ∧ last hist = last all.
Proof.
  simpl. unfold history_cap. split.
  - rewrite length_drop. lia.
  - destruct all as [|x all]; [done|].
    apply last_drop_lt. simpl. lia.
Qed.

(** C2: after any sequence of [update] calls, the history of every endpoint
    in either monitor has at most 10,000 entries, is exactly the most recent
    10,000 samples recorded for that endpoint in recording order (so
    eviction removes the oldest first), and ends with the newest sample. *)
Theorem C2_history_bounded_fifo (calls : list call) (e : string) :
  (∃ m, LatencyMonitor.record_all history_cap calls LatencyMonitor.init = Ret m ∧
        let all := LatencyMonitor.sample_of <$> calls_for e calls in
        let hist := LatencyMonitor.history m e in
        Z.of_nat (length hist) ≤ 10000 ∧
        hist = drop (length all - Z.to_nat history_cap) all ∧
        last hist = last all) ∧
  (∃ m, AvaxMonitor.record_all history_cap calls AvaxMonitor.init = Ret m ∧
        let all := AvaxMonitor.sample_of <$> calls_for e calls in
        let hist := AvaxMonitor.history m e in
        Z.of_nat (length hist) ≤ 10000 ∧
        hist = drop (length all - Z.to_nat history_cap) all ∧
        last hist = last all).
Proof.
  split.
  - rewrite LatencyMonitor_record_all_eq. eexists; split; [done|].
    unfold LatencyMonitor.history. simpl.
    rewrite history_after, length_fmap.
    pose proof (drop_suffix_facts (LatencyMonitor.sample_of <$> calls_for e calls)) as H.
    rewrite length_fmap in H. simpl in H. tauto.
  - rewrite AvaxMonitor_record_all_eq. eexists; split; [done|].
    unfold AvaxMonitor.history. simpl.
    rewrite history_after, length_fmap.
    pose proof (drop_suffix_facts (AvaxMonitor.sample_of <$> calls_for e calls)) as H.
    rewrite length_fmap in H. simpl in H. tauto.
Qed.

(** ** Comparisons and division on floats *)

Lemma fle_le (x y : Qc) : fle x y = true ↔ (x ≤ y)%Qc.
Proof. apply Qle_bool_iff. Qed.

Lemma fle_gt (x y : Qc) : fle x y = false ↔ (y < x)%Qc.
Proof.
  rewrite <- not_true_iff_false, fle_le. split.
  - apply Qcnot_le_lt.
  - apply Qclt_not_le.
Qed.

Lemma flt_lt (x y : Qc) : flt x y = true ↔ (x < y)%Qc.
Proof. unfold flt. rewrite negb_true_iff. apply fle_gt. Qed.

Lemma Qeq_bool_Qc_zero (y : Qc) : y ≠ 0%Qc → Qeq_bool y 0 = false.
Proof.
  intros Hy. apply not_true_iff_false. intros H. apply Hy.
  apply Qc_is_canon. by apply Qeq_bool_iff in H.
Qed.

Lemma Qc_sub_pos (t0 t1 : Qc) : (0 < t1 - t0)%Qc ↔ (t0 < t1)%Qc.
Proof. symmetry. apply Qclt_minus_iff. Qed.

Lemma float_of_int_pos (n : Z) : 0 < n → (0 < float_of_int n)%Qc.
Proof.
  intros Hn. unfold float_of_int, Qc_of_Z, Qclt, Qlt. simpl. lia.
Qed.

Lemma Qcdiv_pos (x y : Qc) : (0 < x)%Qc → (0 < y)%Qc → (0 < x / y)%Qc.
Proof.
  unfold Qclt. intros Hx Hy.
  unfold Qcdiv, Qcmult, Qcinv, Q2Qc. simpl.
  rewrite !Qred_correct.
  apply Qmult_lt_0_compat; [done|]. by apply Qinv_lt_0_compat.
Qed.

Lemma fdiv_nonzero (x y : Qc) : y ≠ 0%Qc → fdiv x y = Ret (x / y)%Qc.
Proof. intros Hy. unfold fdiv. by rewrite Qeq_bool_Qc_zero. Qed.

Lemma fdiv_pos (x y : Qc) : (0 < y)%Qc → fdiv x y = Ret (x / y)%Qc.
Proof. intros Hy. apply fdiv_nonzero. intros ->. by apply Qclt_not_eq in Hy. Qed.

Lemma Qcmult_nonneg (x y : Qc) : (0 ≤ x)%Qc → (0 ≤ y)%Qc → (0 ≤ x * y)%Qc.
Proof.
  unfold Qcle. intros Hx Hy.
  unfold Qcmult, Q2Qc. simpl.
  rewrite !Qred_correct.
  by apply Qmult_le_0_compat.
Qed.

(** Two numeric estimates are equal when their rationals are. *)
Lemma number_eq (x y : Qc) :
  Qeq_bool x y = true → @Ret eta (Number (Finite x)) = Ret (Number (Finite y)).
Proof. intros H. do 3 f_equal. apply Qc_is_canon. by apply Qeq_bool_iff. Qed.

(** ** Trend to zero ([LatencyMonitor.estimate_sync_time]) *)

Lemma window_of_length hist w now :
  (length (LatencyMonitor.window_of hist w now) ≤ length hist)%nat.
Proof.
  unfold LatencyMonitor.window_of. rewrite length_fmap. apply List.filter_length_le.
Qed.

Lemma zero_trend_short m e w now :
  (length (LatencyMonitor.window_of (LatencyMonitor.history m e) w now) < 3)%nat →
  LatencyMonitor.estimate_sync_time m e w now = Ret (Status "Not enough data").
Proof.
  intros Hlen. unfold LatencyMonitor.estimate_sync_time.
  destruct (Nat.ltb_spec (length (LatencyMonitor.history m e)) 3); [done|].
  destruct (Nat.ltb_spec
    (length (LatencyMonitor.window_of (LatencyMonitor.history m e) w now)) 3);
    [done|lia].
Qed.

Lemma zero_trend_eval m e w now t0 lag0 t1 lag1 :
  let window := LatencyMonitor.window_of (LatencyMonitor.history m e) w now in
  (3 ≤ length window)%nat →
  head window = Some (t0, lag0) →
  last window = Some (t1, lag1) →
  LatencyMonitor.estimate_sync_time m e w now =
    if fle (t1 - t0)%Qc 0%Qc then Ret (Status "Not enough data")
    else if lag0 - lag1 <=? 0 then Ret (Status "Block lag not decreasing")
    else Ret (Number (Finite
           (float_of_int lag1 / (float_of_int (lag0 - lag1) / (t1 - t0)))%Qc)).
Proof.
  intros window Hlen Hhead Hlast.
  pose proof (window_of_length (LatencyMonitor.history m e) w now) as Hle.
  fold window in Hle.
  unfold LatencyMonitor.estimate_sync_time. fold window.
  destruct (Nat.ltb_spec (length (LatencyMonitor.history m e)) 3); [lia|].
  destruct (Nat.ltb_spec (length window) 3); [lia|].
  assert (item_first window = Ret (t0, lag0)) as ->.
  { unfold item_first. by destruct window; simplify_eq/=. }
  assert (item_last window = Ret (t1, lag1)) as ->.
  { unfold item_last. by rewrite Hlast. }
  simpl.
  destruct (fle (t1 - t0)%Qc 0%Qc) eqn:Hdt; [done|].
  apply fle_gt in Hdt.
  destruct (Z.leb_spec (lag0 - lag1) 0) as [|Hdlag]; [done|].
  rewrite (fdiv_pos _ _ Hdt). simpl.
  assert (0 < float_of_int (lag0 - lag1) / (t1 - t0))%Qc as Hrate.
  { apply Qcdiv_pos; [by apply float_of_int_pos|done]. }
  destruct (fle _ 0%Qc) eqn:Hr.
  { apply fle_le in Hr. by apply Qcle_not_lt in Hr. }
  by rewrite (fdiv_pos _ _ Hrate).
Qed.

Lemma long_list_ends {A} (l : list A) :
  (3 ≤ length l)%nat → ∃ x y, head l = Some x ∧ last l = Some y.
Proof.
  intros Hlen. destruct l as [|x l]; [simpl in Hlen; lia|].
  destruct (last (x :: l)) as [y|] eqn:Hy; [by eauto|].
  by apply last_None in Hy.
Qed.

(** C4 (as amended): [LatencyMonitor.estimate_sync_time] returns a number
    exactly when the window holds at least 3 samples, the first windowed lag
    is strictly greater than the last, and the window's time span is strictly
    positive; in every other case it returns a status message, and it never
    raises. *)
Theorem C4_zero_trend_numeric_iff (m : LatencyMonitor.t) (e : string) (w : Z) (now : Qc) :
  let window := LatencyMonitor.window_of (LatencyMonitor.history m e) w now in
  let r := LatencyMonitor.estimate_sync_time m e w now in
  (is_number r = true ↔ (3 ≤ length window)%nat ∧ window_decreasing window) ∧
  (is_number r = true ∨ ∃ msg, r = Ret (Status msg)).
Proof.
  intros window r.
  destruct (decide (length window < 3)%nat) as [Hshort|Hlong].
  - subst r. rewrite (zero_trend_short _ _ _ _ Hshort). simpl.
    split; [|by eauto]. split; [done|]. intros [? _]. lia.
  - assert (3 ≤ length window)%nat as Hlen by lia.
    destruct (long_list_ends window Hlen) as ([t0 lag0] & [t1 lag1] & Hh & Hl).
    subst r. rewrite (zero_trend_eval m e w now t0 lag0 t1 lag1 Hlen Hh Hl).
    destruct (fle (t1 - t0)%Qc 0%Qc) eqn:Hdt.
    { split; [|by eauto]. split; [done|].
      intros (_ & t0' & lag0' & t1' & lag1' & Hh' & Hl' & _ & Ht).
      fold window in Hh', Hl'. simplify_eq.
      apply fle_le in Hdt. apply Qc_sub_pos in Ht. by apply Qcle_not_lt in Hdt. }
    destruct (Z.leb_spec (lag0 - lag1) 0) as [Hdlag|Hdlag].
    { split; [|by eauto]. split; [done|].
      intros (_ & t0' & lag0' & t1' & lag1' & Hh' & Hl' & Hlag & _).
      fold window in Hh', Hl'. simplify_eq. lia. }
    split; [|by left]. split; [|done]. intros _. split; [done|].
    exists t0, lag0, t1, lag1. repeat split; [done|done|lia|].
    apply Qc_sub_pos. by apply fle_gt.
Qed.

(** C4 (counterexample): two samples, lag falling from 100 to 60 over 10
    seconds, both inside a 30-second window: the lag strictly decreased over
    a positive time span, yet the estimate is a status, not a number. *)
Lemma C4_counterexample :
  ∃ m, LatencyMonitor.record_all history_cap
         [Call "node" (Qc_of_Z 0) (Qc_of_Z 1) 100 1;
          Call "node" (Qc_of_Z 10) (Qc_of_Z 1) 60 2] LatencyMonitor.init = Ret m ∧
       window_decreasing
         (LatencyMonitor.window_of (LatencyMonitor.history m "node") 30 (Qc_of_Z 10)) ∧
       LatencyMonitor.estimate_sync_time m "node" 30 (Qc_of_Z 10)
         = Ret (Status "Not enough data").
Proof.
  rewrite LatencyMonitor_record_all_eq. eexists; split; [done|]. split.
  - exists (Qc_of_Z 0), 100, (Qc_of_Z 10), 60.
    repeat split; by vm_compute.
  - by vm_compute.
Qed.

(** C5: when the window holds at least 3 samples, starts at
    [(t_first, lag_first)] and ends at [(t_last, lag_last)] with
    [lag_first > lag_last] and [t_last > t_first], the estimate is exactly
    [lag_last / ((lag_first - lag_last) / (t_last - t_first))]. *)
Theorem C5_zero_trend_eta (m : LatencyMonitor.t) (e : string) (w : Z) (now : Qc)
    (t_first : Qc) (lag_first : Z) (t_last : Qc) (lag_last : Z) :
  let window := LatencyMonitor.window_of (LatencyMonitor.history m e) w now in
  (3 ≤ length window)%nat →
  head window = Some (t_first, lag_first) →
  last window = Some (t_last, lag_last) →
  lag_last < lag_first →
  (t_first < t_last)%Qc →
  LatencyMonitor.estimate_sync_time m e w now =
    Ret (Number (Finite
      (float_of_int lag_last /
         (float_of_int (lag_first - lag_last) / (t_last - t_first)))%Qc)).
Proof.
  intros window Hlen Hh Hl Hlag Ht.
  rewrite (zero_trend_eval m e w now _ _ _ _ Hlen Hh Hl).
  apply Qc_sub_pos in Ht.
  destruct (fle (t_last - t_first)%Qc 0%Qc) eqn:Hdt.
  { apply fle_le in Hdt. by apply Qcle_not_lt in Hdt. }
  destruct (Z.leb_spec (lag_first - lag_last) 0); [lia|done].
Qed.

(** C5 (scenario): lags 100, 80, 60 sampled at seconds 0, 10, 20: the rate
    is 2 and the ETA is 30 seconds. *)
Lemma C5_scenario_witness :
  ∃ m, LatencyMonitor.record_all history_cap
         [Call "node" (Qc_of_Z 0) (Qc_of_Z 1) 100 1;
          Call "node" (Qc_of_Z 10) (Qc_of_Z 1) 80 2;
          Call "node" (Qc_of_Z 20) (Qc_of_Z 1) 60 3] LatencyMonitor.init = Ret m ∧
       (float_of_int (100 - 60) / (Qc_of_Z 20 - Qc_of_Z 0))%Qc = Qc_of_Z 2 ∧
       LatencyMonitor.estimate_sync_time m "node" 30 (Qc_of_Z 20)
         = Ret (Number (Finite (Qc_of_Z 30))).
Proof.
  rewrite LatencyMonitor_record_all_eq. eexists; split; [reflexivity|]. split.
  - apply Qc_is_canon. by vm_compute.
  - rewrite (C5_zero_trend_eta _ "node" 30 (Qc_of_Z 20) (Qc_of_Z 0) 100 (Qc_of_Z 20) 60).
    + apply number_eq. by vm_compute.
    + vm_compute. lia.
    + by vm_compute.
    + by vm_compute.
    + lia.
    + by vm_compute.
Defined.

(** ** Trend to target ([AvaxMonitor.estimate_sync_time]) *)

Lemma float_of_int_nonneg (n : Z) : 0 ≤ n → (0 ≤ float_of_int n)%Qc.
Proof. intros Hn. unfold float_of_int, Qc_of_Z, Qcle, Qle. simpl. lia. Qed.

Lemma Qcopp_pos (x : Qc) : (x < 0)%Qc → (0 < - x)%Qc.
Proof. intros Hx. apply Qclt_minus_iff in Hx. by rewrite Qcplus_0_l in Hx. Qed.

Lemma target_trend_short m e target w :
  (length (AvaxMonitor.history m e) < 3)%nat →
  AvaxMonitor.estimate_sync_time m e target w = Ret (Status "Not enough data").
Proof.
  intros Hlen. unfold AvaxMonitor.estimate_sync_time.
  by destruct (Nat.ltb_spec (length (AvaxMonitor.history m e)) 3); [|lia].
Qed.

Lemma target_trend_eval m e target w t_first lag_first t_last lag_last :
  let points := AvaxMonitor.points_of (AvaxMonitor.history m e) w in
  (3 ≤ length (AvaxMonitor.history m e))%nat →
  head points = Some (t_first, lag_first) →
  last points = Some (t_last, lag_last) →
  AvaxMonitor.estimate_sync_time m e target w =
    if lag_last <=? target then Ret (Status "SYNCED")
    else if fle (t_last - t_first)%Qc 0%Qc then Ret (Status "Not enough data")
    else if fle 0%Qc (float_of_int (lag_last - lag_first) / (t_last - t_first))%Qc
    then Ret (Status "Lag stable/increasing")
    else Ret (Number (Finite
           (float_of_int (lag_last - target) /
              - (float_of_int (lag_last - lag_first) / (t_last - t_first)))%Qc)).
Proof.
  intros points Hlen Hhead Hlast.
  unfold AvaxMonitor.estimate_sync_time. fold points.
  destruct (Nat.ltb_spec (length (AvaxMonitor.history m e)) 3); [lia|].
  assert (item_first points = Ret (t_first, lag_first)) as ->.
  { unfold item_first. by destruct points; simplify_eq/=. }
  assert (item_last points = Ret (t_last, lag_last)) as ->.
  { unfold item_last. by rewrite Hlast. }
  simpl.
  destruct (lag_last <=? target); [done|].
  destruct (fle (t_last - t_first)%Qc 0%Qc) eqn:Hdt; [done|].
  apply fle_gt in Hdt. rewrite (fdiv_pos _ _ Hdt). simpl.
  destruct (fle 0%Qc _) eqn:Hslope; [done|].
  apply fle_gt, Qcopp_pos in Hslope.
  assert (flt 0%Qc (- (float_of_int (lag_last - lag_first) / (t_last - t_first)))%Qc
          = true) as -> by by apply flt_lt.
  by rewrite (fdiv_pos _ _ Hslope).
Qed.

(** C7 (as amended): with at least 3 samples in the history and a window
    from [(t_first, lag_first)] to [(t_last, cur_lag)]:
    [cur_lag <= target] gives "SYNCED"; otherwise a time span that is not
    strictly positive gives "Not enough data"; otherwise a non-negative slope
    gives "Lag stable/increasing" and a negative slope gives the number
    [(cur_lag - target) / (- slope)]. *)
Theorem C7_target_trend_cases (m : AvaxMonitor.t) (e : string) (target w : Z)
    (t_first : Qc) (lag_first : Z) (t_last : Qc) (cur_lag : Z) :
  let points := AvaxMonitor.points_of (AvaxMonitor.history m e) w in
  let slope := (float_of_int (cur_lag - lag_first) / (t_last - t_first))%Qc in
  let r := AvaxMonitor.estimate_sync_time m e target w in
  (3 ≤ length (AvaxMonitor.history m e))%nat →
  head points = Some (t_first, lag_first) →
  last points = Some (t_last, cur_lag) →
  (cur_lag ≤ target → r = Ret (Status "SYNCED")) ∧
  (target < cur_lag → (t_last ≤ t_first)%Qc → r = Ret (Status "Not enough data")) ∧
  (target < cur_lag → (t_first < t_last)%Qc → (0 ≤ slope)%Qc →
     r = Ret (Status "Lag stable/increasing")) ∧
  (target < cur_lag → (t_first < t_last)%Qc → (slope < 0)%Qc →
     r = Ret (Number (Finite (float_of_int (cur_lag - target) / - slope)%Qc))).
Proof.
  intros points slope r Hlen Hh Hl. subst r.
  rewrite (target_trend_eval m e target w _ _ _ _ Hlen Hh Hl). fold slope.
  destruct (Z.leb_spec cur_lag target) as [Hcur|Hcur].
  { split; [done|]. repeat split; intros; lia. }
  split; [intros; lia|].
  destruct (fle (t_last - t_first)%Qc 0%Qc) eqn:Hdt.
  - apply fle_le in Hdt.
    assert (¬ (t_first < t_last)%Qc) as Hnot.
    { intros Ht. apply Qc_sub_pos in Ht. by apply Qcle_not_lt in Hdt. }
    split; [done|]. split; intros; by exfalso.
  - apply fle_gt in Hdt. apply -> Qc_sub_pos in Hdt.
    split; [intros _ Ht; destruct (Qcle_not_lt _ _ Ht Hdt)|].
    destruct (fle 0%Qc slope) eqn:Hs.
    + apply fle_le in Hs. split; [done|].
      intros _ _ Hneg. destruct (Qcle_not_lt _ _ Hs Hneg).
    + apply fle_gt in Hs. split; [|done].
      intros _ _ Hpos. destruct (Qcle_not_lt _ _ Hpos Hs).
Qed.

(** C7 (witness): lags 100, 80, 60 at seconds 0, 10, 20 against targets 60
    and 5, and lags 50, 55, 60 against target 5. *)
Lemma C7_target_trend_witness :
  let falling := AvaxMonitor.Build ∅ ∅ ∅ ∅
    {["node" := [(Qc_of_Z 0, 100); (Qc_of_Z 10, 80); (Qc_of_Z 20, 60)]]} ∅ in
  let rising := AvaxMonitor.Build ∅ ∅ ∅ ∅
    {["node" := [(Qc_of_Z 0, 50); (Qc_of_Z 10, 55); (Qc_of_Z 20, 60)]]} ∅ in
  AvaxMonitor.estimate_sync_time falling "node" 60 20 = Ret (Status "SYNCED") ∧
  AvaxMonitor.estimate_sync_time rising "node" 5 20 = Ret (Status "Lag stable/increasing") ∧
  AvaxMonitor.estimate_sync_time falling "node" 5 20
    = Ret (Number (Finite (Q2Qc (55 # 2)))).
Proof.
  intros falling rising.
  pose proof (C7_target_trend_cases falling "node" 60 20
                (Qc_of_Z 0) 100 (Qc_of_Z 20) 60) as Hsynced.
  pose proof (C7_target_trend_cases rising "node" 5 20
                (Qc_of_Z 0) 50 (Qc_of_Z 20) 60) as Hstable.
  pose proof (C7_target_trend_cases falling "node" 5 20
                (Qc_of_Z 0) 100 (Qc_of_Z 20) 60) as Heta.
  cbv zeta in Hsynced, Hstable, Heta.
  destruct Hsynced as (Hsynced & _); [vm_compute; lia|by vm_compute|by vm_compute|].
  destruct Hstable as (_ & _ & Hstable & _);
    [vm_compute; lia|by vm_compute|by vm_compute|].
  destruct Heta as (_ & _ & _ & Heta); [vm_compute; lia|by vm_compute|by vm_compute|].
  split; [apply Hsynced; lia|].
  split; [apply Hstable; [lia|by vm_compute|by vm_compute]|].
  rewrite Heta; [|lia|by vm_compute|by vm_compute].
  apply number_eq. by vm_compute.
Defined.

(** C7 (counterexample): a single sample with lag 3 against target 5. The
    current lag is within the target, yet the estimate is "Not enough data". *)
Lemma C7_counterexample :
  ∃ m, AvaxMonitor.record_all history_cap
         [Call "node" (Qc_of_Z 0) (Qc_of_Z 1) 3 1] AvaxMonitor.init = Ret m ∧
       snd <$> last (AvaxMonitor.points_of (AvaxMonitor.history m "node") 20) = Some 3 ∧
       3 ≤ 5 ∧
       AvaxMonitor.estimate_sync_time m "node" 5 20 = Ret (Status "Not enough data") ∧
       AvaxMonitor.estimate_sync_time m "node" 5 20 ≠ Ret (Status "SYNCED").
Proof.
  rewrite AvaxMonitor_record_all_eq. eexists; split; [done|].
  split; [by vm_compute|]. split; [lia|].
  split; [by vm_compute|]. by vm_compute.
Qed.

(** ** Windows shorter than 3 samples *)

(** C6: the trend-to-target estimator on a history of 3 samples (lags 100,
    80, 60 at seconds 0, 10, 20) with [window_samples = 2] and target 5:
    the window holds 2 samples and the estimate is the number 27.5. On the
    same recorded samples the trend-to-zero estimator, with a time window
    that also selects the last 2 samples, answers "Not enough data". *)
Theorem C6_two_sample_window_estimates :
  let calls := [Call "node" (Qc_of_Z 0) (Qc_of_Z 1) 100 1;
                Call "node" (Qc_of_Z 10) (Qc_of_Z 1) 80 2;
                Call "node" (Qc_of_Z 20) (Qc_of_Z 1) 60 3] in
  (∃ m, AvaxMonitor.record_all history_cap calls AvaxMonitor.init = Ret m ∧
        length (AvaxMonitor.points_of (AvaxMonitor.history m "node") 2) = 2%nat ∧
        AvaxMonitor.estimate_sync_time m "node" 5 2
          = Ret (Number (Finite (Q2Qc (55 # 2))))) ∧
  (∃ m, LatencyMonitor.record_all history_cap calls LatencyMonitor.init = Ret m ∧
        length (LatencyMonitor.window_of (LatencyMonitor.history m "node") 10 (Qc_of_Z 20))
          = 2%nat ∧
        LatencyMonitor.estimate_sync_time m "node" 10 (Qc_of_Z 20)
          = Ret (Status "Not enough data")).
Proof.
  intros calls. split.
  - rewrite AvaxMonitor_record_all_eq. eexists; split; [done|].
    split; [by vm_compute|].
    rewrite (target_trend_eval _ "node" 5 2 (Qc_of_Z 10) 80 (Qc_of_Z 20) 60);
      [|vm_compute; lia|by vm_compute|by vm_compute].
    simpl. apply number_eq. by vm_compute.
  - rewrite LatencyMonitor_record_all_eq. eexists; split; [done|].
    split; by vm_compute.
Qed.

(** ** Block lag recorded by the polling workers *)

Lemma append_bounded_Forall {A} (P : A → Prop) (cap : Z) (x : A) (h : list A) :
  Forall P h → P x → Forall P (append_bounded cap x h).
Proof.
  intros Hh Hx. unfold append_bounded, slice_from.
  assert (Forall P (h ++ [x])) by (apply Forall_app; auto).
  destruct (cap <? _); [by apply Forall_drop|done].
Qed.

Lemma AvaxMonitor_poll_once_nonneg name t0 resp t1 m :
  avax_lags_nonneg m → avax_lags_nonneg (AvaxMonitor.poll_once name t0 resp t1 m).
Proof.
  intros Hm. unfold AvaxMonitor.poll_once.
  destruct resp as [b|err]; simpl; [|done].
  unfold AvaxMonitor.update. rewrite AvaxMonitor_update_cap_eq.
  intros e. unfold AvaxMonitor.history. simpl.
  destruct (decide (name = e)) as [->|Hne].
  - rewrite lookup_insert_eq. simpl.
    apply append_bounded_Forall; [apply Hm|simpl; lia].
  - rewrite lookup_insert_ne by done. apply Hm.
Qed.

(** The AVAX worker only ever records non-negative lags. *)
Lemma AvaxMonitor_poll_latest_block_nonneg name stop trace :
  avax_lags_nonneg (AvaxMonitor.poll_latest_block name stop trace AvaxMonitor.init).
Proof.
  assert (∀ m, avax_lags_nonneg m →
               avax_lags_nonneg (AvaxMonitor.poll_latest_block name stop trace m)) as H.
  { induction trace as [|it trace IH]; intros m Hm; simpl; [done|].
    destruct (flt _ _); [|done].
    by apply IH, AvaxMonitor_poll_once_nonneg. }
  apply H. intros e. unfold AvaxMonitor.history. simpl.
  rewrite lookup_empty. constructor.
Qed.

(** C3: a response received at wall-clock time 100.5 carrying a block whose
    timestamp is 105. The worker of [blocklag_monitor.py] records the lag -5;
    the worker of [blocklag_monitor_avax.py] records 0 on the same input. *)
Theorem C3_latency_monitor_records_negative_lag :
  (λ s : LatencyMonitor.sample, s.1.2) <$>
    LatencyMonitor.history
      (LatencyMonitor.poll_latest_block "node" (Qc_of_Z 200)
         [LatencyMonitor.Build_iteration (Qc_of_Z 99) (Qc_of_Z 100)
            (Ret (LatencyMonitor.Build_block 105 7)) (Q2Qc (201 # 2))]
         LatencyMonitor.init) "node" = [-5] ∧
  (λ s : AvaxMonitor.sample, s.2) <$>
    AvaxMonitor.history
      (AvaxMonitor.poll_latest_block "node" (Qc_of_Z 200)
         [AvaxMonitor.Build_iteration (Qc_of_Z 99) (Qc_of_Z 100)
            (Ret (AvaxMonitor.Build_block 105 7)) (Q2Qc (201 # 2))]
         AvaxMonitor.init) "node" = [0].
Proof. split; by vm_compute. Qed.

(** ** The ChainList cache *)

Import Chainlist.

Lemma int_of_float_le (x : Qc) (k : Z) : (x ≤ float_of_int k)%Qc → int_of_float x ≤ k.
Proof.
  unfold Qcle, Qle, float_of_int, int_of_float. simpl. intros H.
  rewrite Z.mul_1_r in H.
  rewrite <- (Z.quot_mul k (Z.pos (Qden x))) by lia.
  apply Z.quot_le_mono; lia.
Qed.

(** An age within the TTL on the real clock is within it on the truncated one. *)
Lemma age_within (now : Qc) (fa ttl : Z) :
  (now - float_of_int fa ≤ float_of_int ttl)%Qc → int_of_float now - fa ≤ ttl.
Proof.
  intros H. apply Z.le_sub_le_add_r, int_of_float_le.
  revert H. unfold Qcle, float_of_int. simpl. rewrite !Qred_correct.
  unfold Qle. simpl. lia.
Qed.

Lemma nonempty_true (m : gmap Z string) : nonempty m = true ↔ m ≠ ∅.
Proof. unfold nonempty. rewrite negb_true_iff, bool_decide_eq_false. done. Qed.

Lemma nonempty_false (m : gmap Z string) : nonempty m = false ↔ m = ∅.
Proof. unfold nonempty. rewrite negb_false_iff, bool_decide_eq_true. done. Qed.

Lemma fetch_loop_attempts k attempt attempts backoff last_err w :
  (w_attempts w ≤ w_attempts (fetch_loop k attempt attempts backoff last_err w).2)%nat.
Proof.
  revert attempt last_err w.
  induction k as [|k IH]; intros attempt last_err w; simpl; [done|].
  destruct (w_net w (w_attempts w)) as [payload|e]; simpl; [lia|].
  destruct (retryable e); simpl; [|lia].
  destruct (attempt <? attempts); [destruct (flt _ _); simpl; [lia|]|];
    (etrans; [|apply IH]); simpl; lia.
Qed.

Lemma fetch_loop_progress k attempt attempts backoff last_err w :
  (w_attempts w < w_attempts (fetch_loop (S k) attempt attempts backoff last_err w).2)%nat.
Proof.
  simpl.
  destruct (w_net w (w_attempts w)) as [payload|e]; simpl; [lia|].
  destruct (retryable e); simpl; [|lia].
  destruct (attempt <? attempts); [destruct (flt _ _); simpl; [lia|]|];
    (eapply Nat.lt_le_trans; [|apply fetch_loop_attempts]); simpl; lia.
Qed.

Lemma fetch_and_store_attempts c url ttl_s timeout_s retries backoff allow_stale w :
  w_attempts (fetch_and_store c url ttl_s timeout_s retries backoff allow_stale w).2 =
  w_attempts (_fetch_json_with_retries url timeout_s retries backoff w).2.
Proof.
  unfold fetch_and_store.
  destruct (_fetch_json_with_retries url timeout_s retries backoff w) as [[payload|e] w'];
    simpl.
  - by destruct (nonempty _ && w_writable w').
  - by destruct (allow_stale && nonempty _).
Qed.

(** The loader hands every failure back as a mapping. *)
Lemma load_never_raises url ttl_s timeout_s retries backoff allow_stale w :
  ∃ m, (load_chainlist_name_map url ttl_s timeout_s retries backoff allow_stale w).1 = Ret m.
Proof.
  unfold load_chainlist_name_map.
  destruct (cache_fresh _ _ _); [by eauto|].
  unfold fetch_and_store.
  destruct (_fetch_json_with_retries url timeout_s retries backoff w) as [[payload|e] w'].
  - destruct (nonempty _ && w_writable w'); by eauto.
  - destruct (allow_stale && nonempty _); by eauto.
Qed.

(** C8 (as amended): when the cache read yields a non-empty mapping and a
    fetch timestamp, and the age [now - fetched_at] is within the effective
    TTL (the cache's own TTL, or the caller's if the cache records none),
    the loader returns the cached mapping and leaves the world as it was:
    no request is issued. *)
Theorem C8_fresh_cache_no_fetch (url : string) (ttl_s timeout_s retries : Z)
    (backoff : Qc) (allow_stale : bool) (w : world) (fetched_at : Z) :
  let c := read_cache (w_cache w) in
  let r := load_chainlist_name_map url ttl_s timeout_s retries backoff allow_stale w in
  cached_map c ≠ ∅ →
  cached_fetched_at c = Some fetched_at →
  (w_clock w - float_of_int fetched_at ≤ float_of_int (default ttl_s (cached_ttl c)))%Qc →
  r = (Ret (cached_map c), w) ∧ w_attempts r.2 = w_attempts w.
Proof.
  intros c r Hmap Hfa Hage. subst r.
  unfold load_chainlist_name_map. fold c.
  assert (cache_fresh c ttl_s (w_clock w) = true) as ->; [|done].
  unfold cache_fresh. rewrite Hfa.
  apply andb_true_iff. split; [by apply nonempty_true|].
  apply Z.leb_le. by apply age_within.
Qed.

(** C8 (witness): the cache above read 30 seconds after it was fetched. *)
Lemma C8_fresh_cache_witness :
  let w := World (Qc_of_Z 1030) cache_one_name true net_down 0 [] in
  load_chainlist_name_map "https://chainlist.org/rpcs.json" 86400 15 2 (Q2Qc (1 # 2))
    false w = (Ret {[1 := "Ethereum Mainnet"]}, w).
Proof.
  intros w.
  apply (C8_fresh_cache_no_fetch "https://chainlist.org/rpcs.json" 86400 15 2
           (Q2Qc (1 # 2)) false w 1000).
  - intros H. apply (f_equal (λ m : gmap Z string, m !! 1)) in H. by vm_compute in H.
  - by vm_compute.
  - by vm_compute.
Defined.

(** C8 (counterexample): a cache file written at second 1000 with a TTL of
    60 and no entry under ["data"], read at second 1000. Its age is within
    the TTL, yet a request is issued and the mapping returned is the fetched
    one, not the cached one. *)
Lemma C8_counterexample :
  let cache := Content (Ret (JDict [("fetched_at", JInt 1000); ("ttl", JInt 60);
                                    ("data", JDict [])])) in
  let net := λ _ : nat,
    Ret (JList [JDict [("chainId", JInt 1); ("name", JStr "Ethereum Mainnet")]]) in
  let w := World (Qc_of_Z 1000) cache true net 0 [] in
  let r := load_chainlist_name_map "https://chainlist.org/rpcs.json" 86400 15 2
             (Q2Qc (1 # 2)) false w in
  cached_fetched_at (read_cache cache) = Some 1000 ∧
  cached_ttl (read_cache cache) = Some 60 ∧
  (w_clock w - float_of_int 1000 ≤ float_of_int 60)%Qc ∧
  cached_map (read_cache cache) = ∅ ∧
  r.1 = Ret {[1 := "Ethereum Mainnet"]} ∧
  w_attempts r.2 = 1%nat.
Proof. repeat split; by vm_compute. Qed.

(** C9: when the cache is not served and [_fetch_json_with_retries] raises,
    the loader returns the cached mapping if [allow_stale_cache] is set and
    that mapping is non-empty, and the empty mapping otherwise; in both cases
    it returns normally. *)
Theorem C9_fetch_failure_fallback (url : string) (ttl_s timeout_s retries : Z)
    (backoff : Qc) (allow_stale : bool) (w w' : world) (e : exn) :
  let c := read_cache (w_cache w) in
  let r := load_chainlist_name_map url ttl_s timeout_s retries backoff allow_stale w in
  cache_fresh c ttl_s (w_clock w) = false →
  _fetch_json_with_retries url timeout_s retries backoff w = (Raise e, w') →
  (allow_stale = true → cached_map c ≠ ∅ → r = (Ret (cached_map c), w')) ∧
  (allow_stale = false ∨ cached_map c = ∅ → r = (Ret ∅, w')) ∧
  (∃ m, r.1 = Ret m).
Proof.
  intros c r Hstale Hfetch. subst r.
  unfold load_chainlist_name_map. fold c. rewrite Hstale.
  unfold fetch_and_store. rewrite Hfetch.
  split; [|split].
  - intros -> Hmap. apply nonempty_true in Hmap. by rewrite Hmap.
  - intros [->|Hmap]; [done|].
    apply nonempty_false in Hmap. by rewrite Hmap, andb_false_r.
  - destruct (allow_stale && nonempty _); by eauto.
Qed.

(** When every request fails with an error the loop retries, and the
    backoff is not negative, the loop raises after issuing exactly
    [remaining] requests. *)
Lemma fetch_loop_all_fail k attempt attempts backoff last_err w :
  (∀ n, ∃ e, w_net w n = Raise e ∧ retryable e = true) →
  (0 ≤ backoff)%Qc → 1 ≤ attempt →
  ∃ e w', fetch_loop k attempt attempts backoff last_err w = (Raise e, w') ∧
          w_attempts w' = (w_attempts w + k)%nat.
Proof.
  intros Hnet Hb. revert attempt last_err w Hnet.
  induction k as [|k IH]; intros attempt last_err w Hnet Hattempt; simpl.
  { eexists _, _. split; [done|lia]. }
  destruct (Hnet (w_attempts w)) as (e & -> & ->).
  destruct (attempt <? attempts).
  - assert (flt (backoff * float_of_int (2 ^ (attempt - 1)))%Qc 0%Qc = false) as ->.
    { apply not_true_iff_false. rewrite flt_lt. apply Qcle_not_lt.
      apply Qcmult_nonneg; [done|]. apply float_of_int_nonneg. lia. }
    edestruct (IH (attempt + 1) (Some e)) as (e' & w' & -> & Hw');
      [| |eexists _, _; split; [done|]]; simpl in *; [done|lia|lia].
  - edestruct (IH (attempt + 1) (Some e)) as (e' & w' & -> & Hw');
      [| |eexists _, _; split; [done|]]; simpl in *; [done|lia|lia].
Qed.

(** C9 (witness): the cache of [cache_one_name] read a day after it was
    fetched, with the network down and two retries. *)
Lemma C9_fetch_failure_witness :
  let w := World (Qc_of_Z 90000) cache_one_name true net_down 0 [] in
  let url := "https://chainlist.org/rpcs.json" in
  (load_chainlist_name_map url 86400 15 2 (Q2Qc (1 # 2)) true w).1
    = Ret {[1 := "Ethereum Mainnet"]} ∧
  (load_chainlist_name_map url 86400 15 2 (Q2Qc (1 # 2)) false w).1 = Ret ∅ ∧
  w_attempts (load_chainlist_name_map url 86400 15 2 (Q2Qc (1 # 2)) true w).2 = 3%nat.
Proof.
  intros w url.
  destruct (_fetch_json_with_retries url 15 2 (Q2Qc (1 # 2)) w) as [r w'] eqn:Hfetch.
  assert (r = Raise URLError) as -> by (by vm_compute in Hfetch; simplify_eq).
  pose proof (C9_fetch_failure_fallback url 86400 15 2 (Q2Qc (1 # 2)) true
                w w' URLError) as Hon.
  pose proof (C9_fetch_failure_fallback url 86400 15 2 (Q2Qc (1 # 2)) false
                w w' URLError) as Hoff.
  cbv zeta in Hon, Hoff.
  destruct Hon as (Hon & _ & _); [by vm_compute|done|].
  destruct Hoff as (_ & Hoff & _); [by vm_compute|done|].
  rewrite Hon, Hoff.
  - split; [by vm_compute|]. split; [done|].
    simpl. by vm_compute in Hfetch; simplify_eq.
  - by left.
  - done.
  - intros H. apply (f_equal (λ m : gmap Z string, m !! 1)) in H. by vm_compute in H.
Defined.

(** C10: when the cache read yields an empty mapping or no fetch timestamp,
    the loader does not serve the cache, whatever the clock and the TTLs: it
    runs the fetch block, which with [retries >= 0] issues at least one
    request. *)
Theorem C10_empty_or_undated_cache_is_miss (url : string)
    (ttl_s timeout_s retries : Z) (backoff : Qc) (allow_stale : bool) (w : world) :
  let c := read_cache (w_cache w) in
  let r := load_chainlist_name_map url ttl_s timeout_s retries backoff allow_stale w in
  cached_map c = ∅ ∨ cached_fetched_at c = None →
  cache_fresh c ttl_s (w_clock w) = false ∧
  r = fetch_and_store c url ttl_s timeout_s retries backoff allow_stale w ∧
  (0 ≤ retries → (w_attempts w < w_attempts r.2)%nat).
Proof.
  intros c r Hmiss. subst r.
  assert (cache_fresh c ttl_s (w_clock w) = false) as Hstale.
  { unfold cache_fresh. destruct Hmiss as [Hmap | Hfa]; [|by rewrite Hfa].
    apply nonempty_false in Hmap. rewrite Hmap. by destruct (cached_fetched_at c). }
  unfold load_chainlist_name_map. fold c. rewrite Hstale.
  split; [done|]. split; [done|].
  intros Hretries. rewrite fetch_and_store_attempts.
  unfold _fetch_json_with_retries.
  destruct (Z.to_nat (retries + 1)) as [|k] eqn:Hk; [lia|].
  apply fetch_loop_progress.
Qed.

(** C10 (witness): one cache file without ["fetched_at"] and one with an
    empty ["data"], both read within the TTL, with the network down. *)
Lemma C10_cache_miss_witness :
  let undated := Content (Ret (JDict [("ttl", JInt 60);
                                      ("data", JDict [("1", JStr "Ethereum Mainnet")])])) in
  let empty := Content (Ret (JDict [("fetched_at", JInt 1000); ("ttl", JInt 60);
                                    ("data", JDict [("x", JStr "Ethereum Mainnet")])])) in
  let url := "https://chainlist.org/rpcs.json" in
  (0 < w_attempts (load_chainlist_name_map url 86400 15 2 (Q2Qc (1 # 2)) false
                     (World (Qc_of_Z 1000) undated true net_down 0 [])).2)%nat ∧
  (0 < w_attempts (load_chainlist_name_map url 86400 15 2 (Q2Qc (1 # 2)) false
                     (World (Qc_of_Z 1000) empty true net_down 0 [])).2)%nat.
Proof.
  intros undated empty url. split.
  - apply (C10_empty_or_undated_cache_is_miss url 86400 15 2 (Q2Qc (1 # 2)) false
             (World (Qc_of_Z 1000) undated true net_down 0 [])); [by right|lia].
  - apply (C10_empty_or_undated_cache_is_miss url 86400 15 2 (Q2Qc (1 # 2)) false
             (World (Qc_of_Z 1000) empty true net_down 0 [])); [by left; vm_compute|lia].
Defined.

(** * Further properties of the aggregators and the workers *)

Lemma LatencyMonitor_avg_block_lag_after cap calls e :
  ∃ m, LatencyMonitor.record_all cap calls LatencyMonitor.init = Ret m ∧
       LatencyMonitor.avg_block_lag_seconds m e = Ret (mean_lag (calls_for e calls)).
Proof.
  rewrite LatencyMonitor_record_all_eq. eexists; split; [done|].
  unfold LatencyMonitor.avg_block_lag_seconds, getitem. simpl.
  rewrite !bump_fold_lookup.
  destruct (calls_for e calls) as [|c cs] eqn:E; [done|].
  unfold tally. rewrite count_fold.
  change (Z.of_nat (length (c :: cs))) with (Z.pos (Pos.of_succ_nat (length cs))).
  reflexivity.
Qed.

Lemma AvaxMonitor_avg_block_lag_after cap calls e :
  ∃ m, AvaxMonitor.record_all cap calls AvaxMonitor.init = Ret m ∧
       AvaxMonitor.avg_block_lag_seconds m e = Ret (mean_lag (calls_for e calls)).
Proof.
  rewrite AvaxMonitor_record_all_eq. eexists; split; [done|].
  unfold AvaxMonitor.avg_block_lag_seconds, getitem. simpl.
  rewrite !bump_fold_lookup.
  destruct (calls_for e calls) as [|c cs] eqn:E; [done|].
  unfold tally. rewrite count_fold.
  change (Z.of_nat (length (c :: cs))) with (Z.pos (Pos.of_succ_nat (length cs))).
  reflexivity.
Qed.

(** X1: after any sequence of [update] calls, and whatever the history
    bound, [avg_block_lag_seconds] of either monitor is the sum of the
    recorded lags of the endpoint divided by their number, and [0] for an
    endpoint without samples. *)
Theorem X1_avg_block_lag_from_running_totals (cap : Z) (calls : list call) (e : string) :
  (∃ m, LatencyMonitor.record_all cap calls LatencyMonitor.init = Ret m ∧
        LatencyMonitor.avg_block_lag_seconds m e = Ret (mean_lag (calls_for e calls))) ∧
  (∃ m, AvaxMonitor.record_all cap calls AvaxMonitor.init = Ret m ∧
        AvaxMonitor.avg_block_lag_seconds m e = Ret (mean_lag (calls_for e calls))).
Proof.
  split; [apply LatencyMonitor_avg_block_lag_after|apply AvaxMonitor_avg_block_lag_after].
Qed.

(** X2: an [update] for one endpoint changes nothing another endpoint's
    accessors return: history, both averages and the ETA estimate. *)
Theorem X2_update_leaves_other_endpoints (m : LatencyMonitor.t) (a : AvaxMonitor.t)
    (e e' : string) (ts el : Qc) (lag bn : Z) :
  e ≠ e' →
  (∃ m', LatencyMonitor.update m e ts el lag bn = Ret m' ∧
     LatencyMonitor.history m' e' = LatencyMonitor.history m e' ∧
     LatencyMonitor.avg_latency_ms m' e' = LatencyMonitor.avg_latency_ms m e' ∧
     LatencyMonitor.avg_block_lag_seconds m' e' = LatencyMonitor.avg_block_lag_seconds m e' ∧
     ∀ w now, LatencyMonitor.estimate_sync_time m' e' w now
              = LatencyMonitor.estimate_sync_time m e' w now) ∧
  (∃ a', AvaxMonitor.update a e ts el lag bn = Ret a' ∧
     AvaxMonitor.history a' e' = AvaxMonitor.history a e' ∧
     AvaxMonitor.avg_latency_ms a' e' = AvaxMonitor.avg_latency_ms a e' ∧
     AvaxMonitor.avg_block_lag_seconds a' e' = AvaxMonitor.avg_block_lag_seconds a e' ∧
     ∀ target w, AvaxMonitor.estimate_sync_time a' e' target w
                 = AvaxMonitor.estimate_sync_time a e' target w).
Proof.
  intros Hne. split.
  - unfold LatencyMonitor.update. rewrite LatencyMonitor_update_cap_eq.
    eexists; split; [done|].
    assert (LatencyMonitor.history
              (LatencyMonitor.Build
                 (<[e:=(default 0 (LatencyMonitor.total_elapsed m !! e) + el)%Qc]>
                    (LatencyMonitor.total_elapsed m))
                 (<[e:=default 0 (LatencyMonitor.total_requests m !! e) + 1]>
                    (LatencyMonitor.total_requests m))
                 (<[e:=(default 0 (LatencyMonitor.total_lag_seconds m !! e)
                        + float_of_int lag)%Qc]> (LatencyMonitor.total_lag_seconds m))
                 (<[e:=default 0 (LatencyMonitor.total_blocks m !! e) + 1]>
                    (LatencyMonitor.total_blocks m))
                 (<[e:=append_bounded history_cap (ts, lag, bn)
                         (default [] (LatencyMonitor.lag_history m !! e))]>
                    (LatencyMonitor.lag_history m))
                 (<[e:=bn]> (LatencyMonitor.last_block_numbers m))) e'
            = LatencyMonitor.history m e') as Hhist.
    { unfold LatencyMonitor.history. simpl. by rewrite lookup_insert_ne. }
    split; [done|].
    unfold LatencyMonitor.avg_latency_ms, LatencyMonitor.avg_block_lag_seconds,
      LatencyMonitor.estimate_sync_time, getitem.
    rewrite Hhist. simpl. by rewrite !lookup_insert_ne.
  - unfold AvaxMonitor.update. rewrite AvaxMonitor_update_cap_eq.
    eexists; split; [done|].
    assert (AvaxMonitor.history
              (AvaxMonitor.Build
                 (<[e:=(default 0 (AvaxMonitor.total_elapsed a !! e) + el)%Qc]>
                    (AvaxMonitor.total_elapsed a))
                 (<[e:=default 0 (AvaxMonitor.total_requests a !! e) + 1]>
                    (AvaxMonitor.total_requests a))
                 (<[e:=(default 0 (AvaxMonitor.total_lag a !! e)
                        + float_of_int lag)%Qc]> (AvaxMonitor.total_lag a))
                 (<[e:=default 0 (AvaxMonitor.total_blocks a !! e) + 1]>
                    (AvaxMonitor.total_blocks a))
                 (<[e:=append_bounded history_cap (ts, lag)
                         (default [] (AvaxMonitor.lag_history a !! e))]>
                    (AvaxMonitor.lag_history a))
                 (<[e:=bn]> (AvaxMonitor.latest_blocks a))) e'
            = AvaxMonitor.history a e') as Hhist.
    { unfold AvaxMonitor.history. simpl. by rewrite lookup_insert_ne. }
    split; [done|].
    unfold AvaxMonitor.avg_latency_ms, AvaxMonitor.avg_block_lag_seconds,
      AvaxMonitor.estimate_sync_time, getitem.
    rewrite Hhist. simpl. by rewrite !lookup_insert_ne.
Qed.

(** X2 (witness): an update for "a" seen from "b". *)
Lemma X2_update_leaves_other_endpoints_witness :
  LatencyMonitor.history
    (match LatencyMonitor.update LatencyMonitor.init "a" (Qc_of_Z 1) (Qc_of_Z 1) 7 9 with
     | Ret m' => m'
     | Raise _ => LatencyMonitor.init
     end) "b" = [].
Proof.
  destruct (X2_update_leaves_other_endpoints LatencyMonitor.init AvaxMonitor.init
              "a" "b" (Qc_of_Z 1) (Qc_of_Z 1) 7 9) as [(m' & -> & Hhist & _) _];
    [done|].
  by rewrite Hhist.
Defined.

Lemma bounded_length {A} (all : list A) :
  Z.of_nat (length (drop (length all - Z.to_nat history_cap) all))
  = Z.min (Z.of_nat (length all)) 10000.
Proof. rewrite length_drop. unfold history_cap. lia. Qed.

(** X3: after any sequence of [update] calls, the request counter of an
    endpoint equals the number of its updates, its block counter as well,
    and its history holds [min(number of updates, 10000)] samples. *)
Theorem X3_counters_and_history_length (calls : list call) (e : string) :
  let n := Z.of_nat (length (calls_for e calls)) in
  (∃ m, LatencyMonitor.record_all history_cap calls LatencyMonitor.init = Ret m ∧
        default 0 (LatencyMonitor.total_requests m !! e) = n ∧
        default 0 (LatencyMonitor.total_blocks m !! e) = n ∧
        Z.of_nat (length (LatencyMonitor.history m e)) = Z.min n 10000) ∧
  (∃ m, AvaxMonitor.record_all history_cap calls AvaxMonitor.init = Ret m ∧
        default 0 (AvaxMonitor.total_requests m !! e) = n ∧
        default 0 (AvaxMonitor.total_blocks m !! e) = n ∧
        Z.of_nat (length (AvaxMonitor.history m e)) = Z.min n 10000).
Proof.
  intros n. split.
  - rewrite LatencyMonitor_record_all_eq. eexists; split; [done|].
    unfold LatencyMonitor.history. simpl.
    rewrite !bump_fold_lookup, !tally_default, !count_fold.
    split; [done|]. split; [done|].
    rewrite <- tally_default, <- bump_fold_lookup, history_after.
    pose proof (bounded_length (LatencyMonitor.sample_of <$> calls_for e calls)) as H.
    by rewrite length_fmap in H.
  - rewrite AvaxMonitor_record_all_eq. eexists; split; [done|].
    unfold AvaxMonitor.history. simpl.
    rewrite !bump_fold_lookup, !tally_default, !count_fold.
    split; [done|]. split; [done|].
    rewrite <- tally_default, <- bump_fold_lookup, history_after.
    pose proof (bounded_length (AvaxMonitor.sample_of <$> calls_for e calls)) as H.
    by rewrite length_fmap in H.
Qed.

Lemma latest_block_fold (calls : list call) (e : string) :
  foldl (λ (m : gmap string Z) c, <[c_endpoint c:=c_block_number c]> m) ∅ calls !! e
  = c_block_number <$> last (calls_for e calls).
Proof.
  induction calls as [|c calls IH] using rev_ind; [done|].
  rewrite foldl_app, calls_for_snoc. simpl.
  case_bool_decide as He.
  - subst e. by rewrite lookup_insert_eq, last_snoc.
  - by rewrite lookup_insert_ne, app_nil_r.
Qed.

(** X4: the latest block number a monitor holds for an endpoint is the
    block number of the most recent [update] for that endpoint, and is
    absent before the first one. *)
Theorem X4_latest_block_is_last_update (cap : Z) (calls : list call) (e : string) :
  (∃ m, LatencyMonitor.record_all cap calls LatencyMonitor.init = Ret m ∧
        LatencyMonitor.last_block_numbers m !! e
          = c_block_number <$> last (calls_for e calls)) ∧
  (∃ m, AvaxMonitor.record_all cap calls AvaxMonitor.init = Ret m ∧
        AvaxMonitor.latest_blocks m !! e
          = c_block_number <$> last (calls_for e calls)).
Proof.
  split.
  - rewrite LatencyMonitor_record_all_eq. eexists; split; [done|].
    simpl. apply latest_block_fold.
  - rewrite AvaxMonitor_record_all_eq. eexists; split; [done|].
    simpl. apply latest_block_fold.
Qed.

(** ** The polling loop *)

Lemma LatencyMonitor_record_all_cons cap c cs m :
  LatencyMonitor.record_all cap (c :: cs) m =
  m' ← LatencyMonitor.update_cap cap m (c_endpoint c) (c_sample_ts c) (c_elapsed c)
         (c_lag c) (c_block_number c);
  LatencyMonitor.record_all cap cs m'.
Proof.
  unfold LatencyMonitor.record_all. simpl.
  by rewrite LatencyMonitor_update_cap_eq.
Qed.

Lemma AvaxMonitor_record_all_cons cap c cs m :
  AvaxMonitor.record_all cap (c :: cs) m =
  m' ← AvaxMonitor.update_cap cap m (c_endpoint c) (c_sample_ts c) (c_elapsed c)
         (c_lag c) (c_block_number c);
  AvaxMonitor.record_all cap cs m'.
Proof.
  unfold AvaxMonitor.record_all. simpl.
  by rewrite AvaxMonitor_update_cap_eq.
Qed.

(** X5: a run of either worker amounts to the [update] calls of its
    successful iterations, in order, taken from the iterations that start
    before the deadline: failed requests and everything from the first late
    clock reading on leave no trace in the monitor. *)
Theorem X5_worker_is_its_successful_updates (name : string) (stop : Qc)
    (ltrace : list LatencyMonitor.iteration) (atrace : list AvaxMonitor.iteration)
    (m : LatencyMonitor.t) (a : AvaxMonitor.t) :
  LatencyMonitor.record_all history_cap
    (omap (latency_call_of name)
       (live_prefix (λ it, flt (LatencyMonitor.it_clock it) stop) ltrace)) m
    = Ret (LatencyMonitor.poll_latest_block name stop ltrace m) ∧
  AvaxMonitor.record_all history_cap
    (omap (avax_call_of name)
       (live_prefix (λ it, flt (AvaxMonitor.it_clock it) stop) atrace)) a
    = Ret (AvaxMonitor.poll_latest_block name stop atrace a).
Proof.
  split.
  - revert m. induction ltrace as [|it trace IH]; intros m; simpl; [done|].
    destruct (flt (LatencyMonitor.it_clock it) stop); [|done].
    simpl. unfold latency_call_of at 1, LatencyMonitor.poll_once.
    destruct (LatencyMonitor.it_resp it) as [b|err]; simpl; [|apply IH].
    rewrite LatencyMonitor_record_all_cons. simpl.
    unfold LatencyMonitor.update. rewrite LatencyMonitor_update_cap_eq. simpl.
    apply IH.
  - revert a. induction atrace as [|it trace IH]; intros a; simpl; [done|].
    destruct (flt (AvaxMonitor.it_clock it) stop); [|done].
    simpl. unfold avax_call_of at 1, AvaxMonitor.poll_once.
    destruct (AvaxMonitor.it_resp it) as [b|err]; simpl; [|apply IH].
    rewrite AvaxMonitor_record_all_cons. simpl.
    unfold AvaxMonitor.update. rewrite AvaxMonitor_update_cap_eq. simpl.
    apply IH.
Qed.

(** * Further properties of the estimators *)

Lemma Qcdiv_nonneg (x y : Qc) : (0 ≤ x)%Qc → (0 < y)%Qc → (0 ≤ x / y)%Qc.
Proof.
  unfold Qclt, Qcle. intros Hx Hy.
  unfold Qcdiv, Qcmult, Qcinv, Q2Qc. simpl.
  rewrite !Qred_correct.
  apply Qmult_le_0_compat; [done|]. apply Qlt_le_weak. by apply Qinv_lt_0_compat.
Qed.

Lemma Qcdiv_neg (x y : Qc) : (x < 0)%Qc → (0 < y)%Qc → (x / y < 0)%Qc.
Proof.
  unfold Qclt. intros Hx Hy.
  unfold Qcdiv, Qcmult, Qcinv, Q2Qc. simpl.
  rewrite !Qred_correct.
  assert (x * / y < 0 * / y)%Q as H.
  { apply Qmult_lt_compat_r; [|done]. by apply Qinv_lt_0_compat. }
  by rewrite Qmult_0_l in H.
Qed.

Lemma float_of_int_neg (n : Z) : n < 0 → (float_of_int n < 0)%Qc.
Proof. intros Hn. unfold float_of_int, Qc_of_Z, Qclt, Qlt. simpl. lia. Qed.

(** [points_of] for a non-negative [window_samples]. *)
Lemma points_of_nonneg (hist : list AvaxMonitor.sample) (w : Z) :
  0 ≤ w →
  AvaxMonitor.points_of hist w =
    if w =? 0 then hist else drop (length hist - Z.to_nat w) hist.
Proof.
  intros Hw. unfold AvaxMonitor.points_of, slice_from.
  destruct (Z.eqb_spec w 0) as [->|Hw0].
  - destruct (0 <? Z.of_nat (length hist)); [|done].
    change (- 0 <? 0) with false. simpl.
    by replace (Z.to_nat (Z.min (- 0) (Z.of_nat (length hist)))) with 0%nat by lia.
  - destruct (Z.ltb_spec w (Z.of_nat (length hist))).
    + destruct (Z.ltb_spec (- w) 0); [|lia]. f_equal. lia.
    + by replace (length hist - Z.to_nat w)%nat with 0%nat by lia.
Qed.

(** X6: the window of the trend-to-target estimator, for a non-negative
    [window_samples]: [0] selects the whole history (the slice [hist[-0:]]),
    any other value the last [window_samples] samples, and the whole history
    when it has no more than that. *)
Theorem X6_points_of_window (hist : list AvaxMonitor.sample) (w : Z) :
  0 ≤ w →
  AvaxMonitor.points_of hist 0 = hist ∧
  (0 < w → AvaxMonitor.points_of hist w = drop (length hist - Z.to_nat w) hist) ∧
  (Z.of_nat (length hist) ≤ w → AvaxMonitor.points_of hist w = hist).
Proof.
  intros Hw. split; [by rewrite points_of_nonneg|]. split.
  - intros Hpos. rewrite points_of_nonneg by done.
    by destruct (Z.eqb_spec w 0); [lia|].
  - intros Hlen. rewrite points_of_nonneg by done.
    destruct (Z.eqb_spec w 0); [done|].
    by replace (length hist - Z.to_nat w)%nat with 0%nat by lia.
Qed.

(** X6 (witness): a window of 2 over 3 samples. *)
Lemma X6_points_of_window_witness :
  AvaxMonitor.points_of [(Qc_of_Z 0, 100); (Qc_of_Z 10, 80); (Qc_of_Z 20, 60)] 2
  = [(Qc_of_Z 10, 80); (Qc_of_Z 20, 60)].
Proof.
  destruct (X6_points_of_window
              [(Qc_of_Z 0, 100); (Qc_of_Z 10, 80); (Qc_of_Z 20, 60)] 2)
    as (_ & H & _); [lia|].
  rewrite H by lia. reflexivity.
Defined.




(** X8: with at least 3 samples in the history and a [window_samples] of
    minus the history length or below, the slice [hist[-window_samples:]] is
    empty and the estimator raises [IndexError]. *)
Theorem X8_target_trend_negative_window_raises (m : AvaxMonitor.t) (e : string)
    (target w : Z) :
  (3 ≤ length (AvaxMonitor.history m e))%nat →
  w ≤ - Z.of_nat (length (AvaxMonitor.history m e)) →
  AvaxMonitor.estimate_sync_time m e target w = Raise IndexError.
Proof.
  intros Hlen Hw. unfold AvaxMonitor.estimate_sync_time.
  destruct (Nat.ltb_spec (length (AvaxMonitor.history m e)) 3); [lia|].
  assert (AvaxMonitor.points_of (AvaxMonitor.history m e) w = []) as ->; [|done].
  unfold AvaxMonitor.points_of, slice_from.
  destruct (Z.ltb_spec w (Z.of_nat (length (AvaxMonitor.history m e)))); [|lia].
  destruct (Z.ltb_spec (- w) 0); [lia|].
  apply drop_ge. lia.
Qed.

(** X8 (witness): 3 samples and [window_samples = -3]. *)
Lemma X8_target_trend_negative_window_witness :
  let m := AvaxMonitor.Build ∅ ∅ ∅ ∅
    {["node" := [(Qc_of_Z 0, 100); (Qc_of_Z 10, 80); (Qc_of_Z 20, 60)]]} ∅ in
  AvaxMonitor.estimate_sync_time m "node" 5 (-3) = Raise IndexError.
Proof.
  intros m. apply X8_target_trend_negative_window_raises; [vm_compute; lia|by vm_compute].
Defined.

(** X9: a number returned by the trend-to-target estimator is finite and
    strictly positive; the [float("inf")] branch is never taken. *)
Theorem X9_target_trend_number_positive (m : AvaxMonitor.t) (e : string)
    (target w : Z) (x : pyfloat) :
  AvaxMonitor.estimate_sync_time m e target w = Ret (Number x) →
  ∃ q, x = Finite q ∧ (0 < q)%Qc.
Proof.
  intros Hx.
  destruct (decide (length (AvaxMonitor.history m e) < 3)%nat) as [Hshort|Hlong].
  { by rewrite target_trend_short in Hx. }
  destruct (last (AvaxMonitor.points_of (AvaxMonitor.history m e) w))
    as [[t_last lag_last]|] eqn:Hl; cycle 1.
  { unfold AvaxMonitor.estimate_sync_time, item_last in Hx. rewrite Hl in Hx.
    by destruct (_ <? _)%nat. }
  destruct (head (AvaxMonitor.points_of (AvaxMonitor.history m e) w))
    as [[t_first lag_first]|] eqn:Hh; cycle 1.
  { apply head_None in Hh. by rewrite Hh in Hl. }
  rewrite (target_trend_eval m e target w _ _ _ _ ltac:(lia) Hh Hl) in Hx.
  destruct (Z.leb_spec lag_last target) as [|Hcur]; [done|].
  destruct (fle (t_last - t_first)%Qc 0%Qc) eqn:Hdt; [done|].
  destruct (fle 0%Qc _) eqn:Hslope; [done|].
  simplify_eq. eexists; split; [done|].
  apply Qcdiv_pos; [apply float_of_int_pos; lia|].
  by apply Qcopp_pos, fle_gt.
Qed.

(** X9 (witness): lags 100, 80, 60 over 20 seconds against target 5. *)
Lemma X9_target_trend_number_positive_witness :
  let m := AvaxMonitor.Build ∅ ∅ ∅ ∅
    {["node" := [(Qc_of_Z 0, 100); (Qc_of_Z 10, 80); (Qc_of_Z 20, 60)]]} ∅ in
  ∃ q, Finite (Q2Qc (55 # 2)) = Finite q ∧ (0 < q)%Qc.
Proof.
  intros m. apply (X9_target_trend_number_positive m "node" 5 20).
  rewrite (target_trend_eval m "node" 5 20 (Qc_of_Z 0) 100 (Qc_of_Z 20) 60);
    [|vm_compute; lia|by vm_compute|by vm_compute].
  simpl. apply number_eq. by vm_compute.
Defined.

(** X10: the trend-to-zero estimate is a function of the window alone:
    two histories that select the same window give the same estimate, so
    samples older than the window never influence it. *)
Theorem X10_zero_trend_window_only (m1 m2 : LatencyMonitor.t) (e1 e2 : string)
    (w1 w2 : Z) (now1 now2 : Qc) :
  LatencyMonitor.window_of (LatencyMonitor.history m1 e1) w1 now1
    = LatencyMonitor.window_of (LatencyMonitor.history m2 e2) w2 now2 →
  LatencyMonitor.estimate_sync_time m1 e1 w1 now1
    = LatencyMonitor.estimate_sync_time m2 e2 w2 now2.
Proof.
  intros Hwin.
  destruct (decide (length (LatencyMonitor.window_of
                              (LatencyMonitor.history m1 e1) w1 now1) < 3)%nat)
    as [Hshort|Hlong].
  - rewrite (zero_trend_short m1) by done.
    rewrite Hwin in Hshort. by rewrite (zero_trend_short m2).
  - destruct (long_list_ends (LatencyMonitor.window_of
                                (LatencyMonitor.history m1 e1) w1 now1))
      as ([t0 lag0] & [t1 lag1] & Hh & Hl); [lia|].
    rewrite (zero_trend_eval m1 e1 w1 now1 t0 lag0 t1 lag1) by (done || lia).
    rewrite Hwin in Hlong, Hh, Hl.
    by rewrite (zero_trend_eval m2 e2 w2 now2 t0 lag0 t1 lag1) by (done || lia).
Qed.

(** X10 (witness): a sample 100 seconds old in front of a 30-second window. *)
Lemma X10_zero_trend_window_only_witness :
  let recent := [(Qc_of_Z 100, 90, 2); (Qc_of_Z 110, 80, 3); (Qc_of_Z 120, 60, 4)] in
  let m1 := LatencyMonitor.Build ∅ ∅ ∅ ∅ {["node" := (Qc_of_Z 20, 500, 1) :: recent]} ∅ in
  let m2 := LatencyMonitor.Build ∅ ∅ ∅ ∅ {["node" := recent]} ∅ in
  LatencyMonitor.estimate_sync_time m1 "node" 30 (Qc_of_Z 120)
    = LatencyMonitor.estimate_sync_time m2 "node" 30 (Qc_of_Z 120).
Proof.
  intros recent m1 m2. apply X10_zero_trend_window_only. by vm_compute.
Defined.

(** X11: a number returned by the trend-to-zero estimator is finite and
    carries the sign of the last windowed lag: non-negative when that lag is
    non-negative, negative when it is negative. *)
Theorem X11_zero_trend_number_sign (m : LatencyMonitor.t) (e : string) (w : Z)
    (now : Qc) (x : pyfloat) :
  LatencyMonitor.estimate_sync_time m e w now = Ret (Number x) →
  ∃ q t_last lag_last,
    x = Finite q ∧
    last (LatencyMonitor.window_of (LatencyMonitor.history m e) w now)
      = Some (t_last, lag_last) ∧
    (0 ≤ lag_last → (0 ≤ q)%Qc) ∧ (lag_last < 0 → (q < 0)%Qc).
Proof.
  intros Hx.
  destruct (decide (length (LatencyMonitor.window_of
                              (LatencyMonitor.history m e) w now) < 3)%nat)
    as [Hshort|Hlong].
  { by rewrite zero_trend_short in Hx. }
  destruct (long_list_ends (LatencyMonitor.window_of
                              (LatencyMonitor.history m e) w now))
    as ([t0 lag0] & [t1 lag1] & Hh & Hl); [lia|].
  rewrite (zero_trend_eval m e w now t0 lag0 t1 lag1) in Hx by (done || lia).
  destruct (fle (t1 - t0)%Qc 0%Qc) eqn:Hdt; [done|].
  destruct (Z.leb_spec (lag0 - lag1) 0) as [|Hdlag]; [done|].
  simplify_eq. apply fle_gt in Hdt.
  assert (0 < float_of_int (lag0 - lag1) / (t1 - t0))%Qc as Hrate
    by (apply Qcdiv_pos; [by apply float_of_int_pos|done]).
  eexists _, t1, lag1. split; [done|]. split; [done|]. split.
  - intros Hlag. apply Qcdiv_nonneg; [by apply float_of_int_nonneg|done].
  - intros Hlag. apply Qcdiv_neg; [by apply float_of_int_neg|done].
Qed.

(** X11 (witness): lags -1, -3, -5 over 20 seconds give the estimate -25. *)
Lemma X11_zero_trend_number_sign_witness :
  let m := LatencyMonitor.Build ∅ ∅ ∅ ∅
    {["node" := [(Qc_of_Z 0, -1, 1); (Qc_of_Z 10, -3, 2); (Qc_of_Z 20, -5, 3)]]} ∅ in
  ∃ q t_last lag_last,
    Finite (Qc_of_Z (-25)) = Finite q ∧
    last (LatencyMonitor.window_of (LatencyMonitor.history m "node") 30 (Qc_of_Z 20))
      = Some (t_last, lag_last) ∧
    (0 ≤ lag_last → (0 ≤ q)%Qc) ∧ (lag_last < 0 → (q < 0)%Qc).
Proof.
  intros m. apply (X11_zero_trend_number_sign m "node" 30 (Qc_of_Z 20)).
  rewrite (zero_trend_eval m "node" 30 (Qc_of_Z 20) (Qc_of_Z 0) (-1) (Qc_of_Z 20) (-5));
    [|vm_compute; lia|by vm_compute|by vm_compute].
  simpl. apply number_eq. by vm_compute.
Defined.

(** * Further properties of the ChainList cache *)

(** ** Strings: [strip], [isdigit], [int] *)

Lemma rev_app_app (s t u : string) :
  String.rev_app (s +:+ t) u = String.rev_app t (String.rev_app s u).
Proof. revert u. induction s as [|a s IH]; intros u; simpl; [done|]. apply IH. Qed.

Lemma rev_app_rev_app (s t u : string) :
  String.rev_app (String.rev_app s t) u = String.rev_app t (s +:+ u).
Proof.
  revert t u. induction s as [|a s IH]; intros t u; simpl; [done|].
  by rewrite IH.
Qed.

Lemma string_app_nil_r (s : string) : s +:+ "" = s.
Proof.
  induction s as [|a s IH]; [done|].
  change (String a (s +:+ "") = String a s). by rewrite IH.
Qed.

Lemma string_rev_involutive (s : string) : String.rev (String.rev s) = s.
Proof.
  unfold String.rev. rewrite rev_app_rev_app. simpl. apply string_app_nil_r.
Qed.

Lemma rev_app_append (s t u : string) :
  String.rev_app s (t +:+ u) = String.rev_app s t +:+ u.
Proof.
  revert t. induction s as [|a s IH]; intros t; simpl; [done|].
  change (String a (t +:+ u)) with (String a t +:+ u). apply IH.
Qed.

Lemma rev_app_snoc (s t : string) : String.rev_app s t = String.rev s +:+ t.
Proof. unfold String.rev. by rewrite <- rev_app_append. Qed.

Lemma lstrip_starts_clean (s : string) : starts_clean (lstrip s).
Proof.
  induction s as [|c s IH]; simpl; [done|].
  destruct (is_space c) eqn:Hc; [done|]. exact Hc.
Qed.

Lemma lstrip_clean (s : string) : starts_clean s → lstrip s = s.
Proof. destruct s as [|c s]; simpl; [done|]. by intros ->. Qed.

Lemma lstrip_snoc (s : string) (c : ascii) :
  is_space c = false → lstrip (s +:+ String c "") = lstrip s +:+ String c "".
Proof.
  intros Hc. induction s as [|d s IH]; simpl; [by rewrite Hc|].
  by destruct (is_space d).
Qed.

(** [strip] leaves a string with nothing to strip at either end. *)
Lemma strip_ends_clean (s : string) :
  starts_clean (strip s) ∧ starts_clean (String.rev (strip s)).
Proof.
  unfold strip. rewrite string_rev_involutive.
  split; [|apply lstrip_starts_clean].
  pose proof (lstrip_starts_clean s) as Ha.
  destruct (lstrip s) as [|c a]; [done|]. simpl in Ha.
  unfold String.rev at 2. simpl. rewrite rev_app_snoc, lstrip_snoc by done.
  unfold String.rev. rewrite rev_app_app. simpl. exact Ha.
Qed.

Lemma strip_idempotent (s : string) : strip (strip s) = strip s.
Proof.
  destruct (strip_ends_clean s) as [H1 H2].
  unfold strip at 1. by rewrite (lstrip_clean _ H1), (lstrip_clean _ H2),
    string_rev_involutive.
Qed.

Lemma eqb_empty_false (s : string) : negb (String.eqb s "") = true ↔ s ≠ "".
Proof.
  rewrite negb_true_iff. split.
  - intros H ->. by rewrite String.eqb_refl in H.
  - intros H. by apply String.eqb_neq.
Qed.

Lemma strip_clean_name (s : string) :
  negb (String.eqb (strip s) "") = true → clean_name (strip s).
Proof. intros H. split; [by apply eqb_empty_false|apply strip_idempotent]. Qed.

Lemma int_of_digits_from_nonneg (s : string) (acc : Z) :
  0 ≤ acc → 0 ≤ int_of_digits_from acc s.
Proof.
  revert acc. induction s as [|c s IH]; intros acc Hacc; simpl; [done|].
  apply IH. lia.
Qed.

(** ** What the loaders store *)

Lemma cached_entry_valid (out : gmap Z string) (kv : string * json) :
  map_Forall (λ k v, 0 ≤ k ∧ clean_name v) out →
  map_Forall (λ k v, 0 ≤ k ∧ clean_name v) (cached_entry out kv).
Proof.
  intros Hout. unfold cached_entry.
  destruct kv.2 as [| | | |v| |]; try done.
  destruct (isdigit kv.1 && negb (String.eqb (strip v) "")) eqn:Hok; [|done].
  apply andb_true_iff in Hok as [_ Hv].
  apply map_Forall_insert_2; [|done].
  split; [by apply int_of_digits_from_nonneg|by apply strip_clean_name].
Qed.

Lemma foldl_invariant {A B} (P : A → Prop) (f : A → B → A) (l : list B) (a : A) :
  P a → (∀ a b, P a → P (f a b)) → P (foldl f a l).
Proof.
  intros Ha Hf. revert a Ha. induction l as [|b l IH]; intros a Ha; simpl; auto.
Qed.

Lemma read_cache_valid (f : file) :
  map_Forall (λ k v, 0 ≤ k ∧ clean_name v) (cached_map (read_cache f)).
Proof.
  assert (map_Forall (λ k v, 0 ≤ k ∧ clean_name v) (∅ : gmap Z string)) as Hempty
    by apply map_Forall_empty.
  unfold read_cache.
  destruct f as [|[[| | | | | |cache_obj]|err]]; try exact Hempty.
  destruct (dict_get cache_obj "data") as [| | | | | |data]; try exact Hempty.
  assert (map_Forall (λ k v, 0 ≤ k ∧ clean_name v) (foldl cached_entry ∅ data)) as Hdata.
  { apply (foldl_invariant (map_Forall (λ k v, 0 ≤ k ∧ clean_name v)));
      [exact Hempty|]. intros a b. apply cached_entry_valid. }
  destruct (int_field (dict_get cache_obj "fetched_at")); [|exact Hdata].
  by destruct (int_field (dict_get cache_obj "ttl")).
Qed.

(** X12: whatever the cache file holds, every entry the cache read keeps
    has a non-negative chain id and a name that is not empty and has no
    surrounding whitespace. *)
Theorem X12_read_cache_entries_valid (f : file) :
  map_Forall (λ k v, 0 ≤ k ∧ clean_name v) (cached_map (read_cache f)).
Proof. apply read_cache_valid. Qed.

Lemma add_item_valid (out : gmap Z string) (item : json) :
  map_Forall (λ _ v, clean_name v) out →
  map_Forall (λ _ v, clean_name v) (add_item out item).
Proof.
  intros Hout. unfold add_item.
  destruct item as [| | | | | |item]; try done.
  destruct (py_or _ _) as [| | | |name| |]; try done.
  destruct (negb (String.eqb (strip name) "")) eqn:Hname; [|done].
  apply strip_clean_name in Hname.
  destruct (dict_get item "chainId") as [|b|cid| |cid| |]; try done.
  - by apply map_Forall_insert_2.
  - by apply map_Forall_insert_2.
  - destruct (isdigit cid); [|done]. by apply map_Forall_insert_2.
Qed.

Lemma build_valid (payload : json) :
  map_Forall (λ _ v, clean_name v) (_build_chainid_to_name payload).
Proof.
  assert (map_Forall (λ (_ : Z) v, clean_name v) (∅ : gmap Z string)) as Hempty
    by apply map_Forall_empty.
  assert (∀ items, map_Forall (λ (_ : Z) v, clean_name v) (foldl add_item ∅ items))
    as Hitems.
  { intros items.
    apply (foldl_invariant (map_Forall (λ (_ : Z) v, clean_name v)));
      [exact Hempty|]. intros a b. apply add_item_valid. }
  unfold _build_chainid_to_name.
  destruct payload as [| | | | |items|payload]; try exact Hempty; [apply Hitems|].
  destruct (first_list payload _); [apply Hitems|exact Hempty].
Qed.

(** X13: whatever the payload, every name [_build_chainid_to_name] returns
    is not empty and has no surrounding whitespace. *)
Theorem X13_build_names_clean (payload : json) :
  map_Forall (λ _ v, clean_name v) (_build_chainid_to_name payload).
Proof. apply build_valid. Qed.

(** ** The retry loop *)

Lemma fetch_loop_frame k attempt attempts backoff last_err w :
  let w' := (fetch_loop k attempt attempts backoff last_err w).2 in
  w_cache w' = w_cache w ∧ w_writable w' = w_writable w ∧ w_net w' = w_net w.
Proof.
  revert attempt last_err w.
  induction k as [|k IH]; intros attempt last_err w; simpl; [done|].
  destruct (w_net w (w_attempts w)) as [payload|e]; simpl; [done|].
  destruct (retryable e); simpl; [|done].
  destruct (attempt <? attempts); [destruct (flt _ _); simpl; [done|]|];
    match goal with
    | |- context [fetch_loop k ?a attempts backoff ?le ?w0] =>
        exact (IH a le w0)
    end.
Qed.

Lemma fetch_loop_bounds k attempt attempts backoff last_err w :
  let w' := (fetch_loop k attempt attempts backoff last_err w).2 in
  (w_attempts w' ≤ w_attempts w + k)%nat ∧
  (length (w_slept w') ≤ length (w_slept w) + Z.to_nat (attempts - attempt))%nat.
Proof.
  revert attempt last_err w.
  induction k as [|k IH]; intros attempt last_err w; simpl; [lia|].
  destruct (w_net w (w_attempts w)) as [payload|e]; simpl; [lia|].
  destruct (retryable e); simpl; [|lia].
  destruct (Z.ltb_spec attempt attempts).
  - destruct (flt _ _); simpl; [lia|].
    match goal with
    | |- context [fetch_loop k ?a attempts backoff ?le ?w0] =>
        destruct (IH a le w0) as [H1 H2]
    end.
    simpl in *. lia.
  - match goal with
    | |- context [fetch_loop k ?a attempts backoff ?le ?w0] =>
        destruct (IH a le w0) as [H1 H2]
    end.
    simpl in *. lia.
Qed.

(** X14: [_fetch_json_with_retries] issues at most [retries + 1] requests
    and sleeps at most [retries] times, and it leaves the cache file alone. *)
Theorem X14_fetch_is_bounded (url : string) (timeout_s retries : Z) (backoff : Qc)
    (w : world) :
  let w' := (_fetch_json_with_retries url timeout_s retries backoff w).2 in
  (w_attempts w' ≤ w_attempts w + Z.to_nat (retries + 1))%nat ∧
  (length (w_slept w') ≤ length (w_slept w) + Z.to_nat retries)%nat ∧
  w_cache w' = w_cache w.
Proof.
  unfold _fetch_json_with_retries. simpl.
  pose proof (fetch_loop_bounds (Z.to_nat (retries + 1)) 1 (retries + 1) backoff None w)
    as [H1 H2].
  pose proof (fetch_loop_frame (Z.to_nat (retries + 1)) 1 (retries + 1) backoff None w)
    as (H3 & _).
  simpl in *. replace (retries + 1 - 1) with retries in H2 by lia. done.
Qed.

Lemma backoff_schedule_S backoff attempt n :
  backoff_schedule backoff attempt (S n) =
  (backoff * float_of_int (2 ^ (attempt - 1)))%Qc
    :: backoff_schedule backoff (attempt + 1) n.
Proof.
  unfold backoff_schedule. simpl. f_equal.
  - by replace (attempt - 1 + Z.of_nat 0) with (attempt - 1) by lia.
  - rewrite <- fmap_S_seq, <- list_fmap_compose. apply list_fmap_ext.
    intros i x _. simpl. do 3 f_equal. lia.
Qed.

(** After [j] retryable failures, each followed by its sleep, the loop is
    where it would be had it started [j] attempts later. *)
Lemma fetch_loop_failures j k attempt attempts backoff last_err w :
  (0 ≤ backoff)%Qc → 1 ≤ attempt → attempt + Z.of_nat j ≤ attempts →
  (∀ i, (i < j)%nat →
        ∃ e, w_net w (w_attempts w + i)%nat = Raise e ∧ retryable e = true) →
  ∃ last_err' w',
    fetch_loop (j + k) attempt attempts backoff last_err w
      = fetch_loop k (attempt + Z.of_nat j) attempts backoff last_err' w' ∧
    w_attempts w' = (w_attempts w + j)%nat ∧
    w_slept w' = reverse (backoff_schedule backoff attempt j) ++ w_slept w ∧
    w_net w' = w_net w ∧ w_cache w' = w_cache w ∧ w_writable w' = w_writable w.
Proof.
  intros Hb. revert attempt last_err w.
  induction j as [|j IH]; intros attempt last_err w Hattempt Hle Hfail.
  { exists last_err, w. simpl.
    replace (attempt + Z.of_nat 0) with attempt by lia.
    split; [done|]. split; [lia|]. done. }
  simpl.
  destruct (Hfail 0%nat) as (e & He & Hretry); [lia|].
  rewrite Nat.add_0_r in He. rewrite He, Hretry.
  destruct (Z.ltb_spec attempt attempts); [|lia].
  assert (flt (backoff * float_of_int (2 ^ (attempt - 1)))%Qc 0%Qc = false) as ->.
  { apply not_true_iff_false. rewrite flt_lt. apply Qcle_not_lt.
    apply Qcmult_nonneg; [done|]. apply float_of_int_nonneg. lia. }
  edestruct (IH (attempt + 1) (Some e)) as (le' & w' & -> & Ha & Hs & Hn & Hc & Hw);
    [lia|lia| |].
  { simpl. intros i Hi. destruct (Hfail (S i)) as (e' & He' & Hr'); [lia|].
    exists e'. split; [|done]. rewrite <- He'. f_equal. lia. }
  simpl in *. exists le', w'.
  replace (attempt + 1 + Z.of_nat j) with (attempt + Z.pos (Pos.of_succ_nat j)) by lia.
  split; [done|]. split; [lia|]. split; [|done].
  rewrite Hs, backoff_schedule_S, reverse_cons, <- app_assoc. done.
Qed.

(** X15: when every request fails with an error the loop retries, with
    [retries >= 0] and a non-negative backoff, [_fetch_json_with_retries]
    raises the error of the last attempt after exactly [retries + 1] requests,
    having slept [backoff * 2^(i-1)] after failed attempt [i], for [i] from 1
    to [retries]; there is no sleep after the last attempt. *)
Theorem X15_fetch_all_fail_schedule (url : string) (timeout_s retries : Z)
    (backoff : Qc) (w : world) :
  (0 ≤ backoff)%Qc → 0 ≤ retries →
  (∀ n, ∃ e, w_net w n = Raise e ∧ retryable e = true) →
  ∃ e w',
    _fetch_json_with_retries url timeout_s retries backoff w = (Raise e, w') ∧
    w_net w (w_attempts w + Z.to_nat retries)%nat = Raise e ∧
    w_attempts w' = (w_attempts w + Z.to_nat retries + 1)%nat ∧
    w_slept w' = reverse (backoff_schedule backoff 1 (Z.to_nat retries)) ++ w_slept w.
Proof.
  intros Hb Hretries Hnet. unfold _fetch_json_with_retries.
  replace (Z.to_nat (retries + 1)) with (Z.to_nat retries + 1)%nat by lia.
  destruct (fetch_loop_failures (Z.to_nat retries) 1 1 (retries + 1) backoff None w)
    as (le' & w1 & -> & Ha & Hs & Hn & _); [done|lia|lia|by intros; apply Hnet|].
  simpl. destruct (Hnet (w_attempts w + Z.to_nat retries)%nat) as (e & He & Hr).
  rewrite Hn, Ha, He, Hr.
  destruct (Z.ltb_spec (1 + Z.of_nat (Z.to_nat retries)) (retries + 1)); [lia|].
  simpl. eexists _, _. split; [done|]. simpl.
  split; [done|]. split; [lia|done].
Qed.

(** X15 (witness): the network down, two retries, half a second of backoff:
    three requests, sleeps of 0.5 then 1 second. *)
Lemma X15_fetch_all_fail_witness :
  let w := World (Qc_of_Z 0) Missing true net_down 0 [] in
  ∃ e w',
    _fetch_json_with_retries "u" 15 2 (Q2Qc (1 # 2)) w = (Raise e, w') ∧
    w_net w (w_attempts w + Z.to_nat 2)%nat = Raise e ∧
    w_attempts w' = (w_attempts w + Z.to_nat 2 + 1)%nat ∧
    w_slept w' = reverse (backoff_schedule (Q2Qc (1 # 2)) 1 (Z.to_nat 2)) ++ w_slept w.
Proof.
  intros w. apply X15_fetch_all_fail_schedule; [by vm_compute|lia|].
  intros n. by exists URLError.
Defined.

(** X16: after [j <= retries] retryable failures, a request whose outcome
    is a payload or an error the loop does not retry ends the call with that
    outcome, after [j + 1] requests and [j] sleeps. *)
Theorem X16_fetch_first_decisive_outcome (url : string) (timeout_s retries : Z)
    (backoff : Qc) (w : world) (j : nat) :
  (0 ≤ backoff)%Qc → Z.of_nat j ≤ retries →
  (∀ i, (i < j)%nat →
        ∃ e, w_net w (w_attempts w + i)%nat = Raise e ∧ retryable e = true) →
  match w_net w (w_attempts w + j)%nat with
  | Ret _ => True
  | Raise e => retryable e = false
  end →
  ∃ w',
    _fetch_json_with_retries url timeout_s retries backoff w
      = (w_net w (w_attempts w + j)%nat, w') ∧
    w_attempts w' = (w_attempts w + j + 1)%nat ∧
    w_slept w' = reverse (backoff_schedule backoff 1 j) ++ w_slept w.
Proof.
  intros Hb Hj Hfail Hout. unfold _fetch_json_with_retries.
  replace (Z.to_nat (retries + 1)) with (j + S (Z.to_nat retries - j))%nat by lia.
  destruct (fetch_loop_failures j (S (Z.to_nat retries - j)) 1 (retries + 1)
              backoff None w)
    as (le' & w1 & -> & Ha & Hs & Hn & _); [done|lia|lia|done|].
  simpl. rewrite Hn, Ha.
  destruct (w_net w (w_attempts w + j)%nat) as [payload|e].
  - eexists. split; [done|]. simpl. split; [lia|done].
  - rewrite Hout. eexists. split; [done|]. simpl. split; [lia|done].
Qed.

(** X16 (witness): one timeout, then a payload. *)
Lemma X16_fetch_first_decisive_witness :
  let net := λ n : nat, if (n =? 0)%nat then Raise TimeoutError else Ret (JList []) in
  let w := World (Qc_of_Z 0) Missing true net 0 [] in
  ∃ w', _fetch_json_with_retries "u" 15 2 (Q2Qc (1 # 2)) w = (Ret (JList []), w') ∧
        w_attempts w' = 2%nat ∧
        w_slept w' = reverse (backoff_schedule (Q2Qc (1 # 2)) 1 1) ++ [].
Proof.
  intros net w.
  apply (X16_fetch_first_decisive_outcome "u" 15 2 (Q2Qc (1 # 2)) w 1);
    [by vm_compute|lia| |done].
  intros i Hi. assert (i = 0%nat) as -> by lia. by exists TimeoutError.
Defined.

(** ** The loader *)

Lemma fetch_negative_retries url timeout_s retries backoff w :
  retries < 0 →
  _fetch_json_with_retries url timeout_s retries backoff w = (Raise AssertionError, w).
Proof.
  intros Hr. unfold _fetch_json_with_retries.
  by replace (Z.to_nat (retries + 1)) with 0%nat by lia.
Qed.

(** X17: with a negative [retries] the loop body never runs: the loader
    issues no request and, unless it serves a fresh cache, falls back to the
    stale mapping (when allowed and non-empty) or to the empty mapping, with
    the world untouched. *)
Theorem X17_negative_retries_no_request (url : string) (ttl_s timeout_s retries : Z)
    (backoff : Qc) (allow_stale : bool) (w : world) :
  let c := read_cache (w_cache w) in
  retries < 0 →
  cache_fresh c ttl_s (w_clock w) = false →
  load_chainlist_name_map url ttl_s timeout_s retries backoff allow_stale w
    = (Ret (if allow_stale && nonempty (cached_map c) then cached_map c else ∅), w).
Proof.
  intros c Hr Hstale. unfold load_chainlist_name_map. fold c. rewrite Hstale.
  unfold fetch_and_store. rewrite fetch_negative_retries by done.
  by destruct (allow_stale && nonempty (cached_map c)).
Qed.

(** X17 (witness): a missing cache file and [retries = -1]. *)
Lemma X17_negative_retries_witness :
  let w := World (Qc_of_Z 1000) Missing true net_down 0 [] in
  load_chainlist_name_map "u" 86400 15 (-1) (Q2Qc (1 # 2)) true w = (Ret ∅, w).
Proof.
  intros w.
  by apply (X17_negative_retries_no_request "u" 86400 15 (-1) (Q2Qc (1 # 2)) true w).
Defined.

Lemma load_result_valid url ttl_s timeout_s retries backoff allow_stale w :
  ∃ m, (load_chainlist_name_map url ttl_s timeout_s retries backoff allow_stale w).1
         = Ret m ∧
       map_Forall (λ _ v, clean_name v) m.
Proof.
  assert (map_Forall (λ (_ : Z) v, clean_name v) (cached_map (read_cache (w_cache w))))
    as Hcached.
  { eapply map_Forall_impl; [apply read_cache_valid|]. by intros k v [_ ?]. }
  unfold load_chainlist_name_map.
  destruct (cache_fresh _ _ _); [by eauto|].
  unfold fetch_and_store.
  destruct (_fetch_json_with_retries url timeout_s retries backoff w) as [[payload|e] w'].
  - destruct (nonempty _ && w_writable w'); eauto using build_valid.
  - destruct (allow_stale && nonempty _); [by eauto|].
    eexists; split; [done|]. apply map_Forall_empty.
Qed.

(** X18: in every world and for every argument, the loader returns a
    mapping, and every name in it is non-empty with no surrounding
    whitespace, whether it came from the cache, from the network or from the
    stale fallback. *)
Theorem X18_load_names_clean (url : string) (ttl_s timeout_s retries : Z)
    (backoff : Qc) (allow_stale : bool) (w : world) :
  ∃ m, (load_chainlist_name_map url ttl_s timeout_s retries backoff allow_stale w).1
         = Ret m ∧
       map_Forall (λ _ v, clean_name v) m.
Proof. apply load_result_valid. Qed.

Lemma fetch_loop_result_agrees k attempt attempts backoff last_err w1 w2 :
  w_net w1 = w_net w2 → w_attempts w1 = w_attempts w2 →
  (fetch_loop k attempt attempts backoff last_err w1).1
  = (fetch_loop k attempt attempts backoff last_err w2).1.
Proof.
  revert attempt last_err w1 w2.
  induction k as [|k IH]; intros attempt last_err w1 w2 Hnet Hatt; simpl; [done|].
  rewrite Hnet, Hatt.
  destruct (w_net w2 (w_attempts w2)) as [payload|e]; simpl; [done|].
  destruct (retryable e); simpl; [|done].
  destruct (attempt <? attempts); [destruct (flt _ _); simpl; [done|]|];
    apply IH; simpl; congruence.
Qed.

(** X19: the mapping the loader returns does not depend on whether the
    cache file can be written: a failed write is skipped, not reported. *)
Theorem X19_load_result_ignores_write_failure (url : string)
    (ttl_s timeout_s retries : Z) (backoff : Qc) (allow_stale : bool)
    (clock : Qc) (cache : file) (net : nat → res json) (attempts : nat)
    (slept : list Qc) :
  (load_chainlist_name_map url ttl_s timeout_s retries backoff allow_stale
     (World clock cache false net attempts slept)).1
  = (load_chainlist_name_map url ttl_s timeout_s retries backoff allow_stale
       (World clock cache true net attempts slept)).1.
Proof.
  unfold load_chainlist_name_map. simpl.
  destruct (cache_fresh _ _ _); [done|].
  unfold fetch_and_store, _fetch_json_with_retries.
  pose proof (fetch_loop_result_agrees (Z.to_nat (retries + 1)) 1 (retries + 1)
                backoff None (World clock cache false net attempts slept)
                (World clock cache true net attempts slept) eq_refl eq_refl) as H.
  destruct (fetch_loop _ _ _ _ _ (World clock cache false net attempts slept))
    as [r1 w1], (fetch_loop _ _ _ _ _ (World clock cache true net attempts slept))
    as [r2 w2].
  simpl in H. subst r2.
  destruct r1 as [payload|e].
  - by destruct (nonempty _ && w_writable w1), (nonempty _ && w_writable w2).
  - by destruct (allow_stale && nonempty _).
Qed.


(** ** Writing the cache and reading it back *)

Lemma pretty_N_char_digit (d : N) : is_ascii_digit (pretty_N_char d) = true.
Proof. unfold pretty_N_char. by repeat case_match. Qed.

Lemma pretty_N_char_value (d : N) :
  (d < 10)%N → Z.of_nat (nat_of_ascii (pretty_N_char d) - 48) = Z.of_N d.
Proof.
  intros Hd.
  assert (d = 0 ∨ d = 1 ∨ d = 2 ∨ d = 3 ∨ d = 4 ∨ d = 5 ∨ d = 6 ∨ d = 7 ∨ d = 8
          ∨ d = 9)%N as Hcases by lia.
  decompose [or] Hcases; subst; reflexivity.
Qed.

Lemma pretty_N_go_all_digits (x : N) (s : string) :
  all_digits s = true → all_digits (pretty_N_go x s) = true.
Proof.
  revert s. induction (N.lt_wf_0 x) as [x _ IH]; intros s Hs.
  destruct (decide (x = 0%N)) as [->|Hx]; [by rewrite pretty_N_go_0|].
  rewrite pretty_N_go_step by lia. apply IH.
  - apply N.div_lt; lia.
  - simpl. by rewrite pretty_N_char_digit, Hs.
Qed.

Lemma pretty_N_go_length (x : N) (s : string) :
  (String.length s ≤ String.length (pretty_N_go x s))%nat.
Proof.
  revert s. induction (N.lt_wf_0 x) as [x _ IH]; intros s.
  destruct (decide (x = 0%N)) as [->|Hx]; [by rewrite pretty_N_go_0|].
  rewrite pretty_N_go_step by lia.
  etrans; [|apply IH, N.div_lt; lia]. simpl. lia.
Qed.

Lemma pretty_N_go_value (x : N) (s : string) :
  int_of_digits_from 0 (pretty_N_go x s) = int_of_digits_from (Z.of_N x) s.
Proof.
  revert s. induction (N.lt_wf_0 x) as [x _ IH]; intros s.
  destruct (decide (x = 0%N)) as [->|Hx]; [by rewrite pretty_N_go_0|].
  rewrite pretty_N_go_step by lia. rewrite IH by (apply N.div_lt; lia).
  simpl. rewrite pretty_N_char_value by (apply N.mod_lt; lia).
  f_equal. rewrite N2Z.inj_div, N2Z.inj_mod.
  change (Z.of_N 10) with 10. pose proof (Z.div_mod (Z.of_N x) 10). lia.
Qed.

(** [str(k)] of a non-negative [k] is a digit string that [int] reads back. *)
Lemma pretty_Z_digits (k : Z) :
  0 ≤ k → isdigit (pretty k) = true ∧ int_of_digits (pretty k) = k.
Proof.
  intros Hk. destruct k as [|p|p]; [done| |lia].
  unfold pretty, pretty_Z, pretty, pretty_positive, pretty, pretty_N.
  case_decide; [done|].
  split.
  - pose proof (pretty_N_go_length (N.pos p) "") as Hlen.
    pose proof (pretty_N_go_all_digits (N.pos p) "" eq_refl) as Hdig.
    rewrite pretty_N_go_step in * by lia.
    unfold isdigit.
    destruct (pretty_N_go _ _) eqn:E; [|done].
    pose proof (pretty_N_go_length (N.pos p `div` 10)
                  (String (pretty_N_char (N.pos p `mod` 10)) "")) as Hl.
    rewrite E in Hl. simpl in Hl. lia.
  - unfold int_of_digits. by rewrite pretty_N_go_value.
Qed.

Lemma cached_entry_roundtrip (out : gmap Z string) (k : Z) (v : string) :
  0 ≤ k → clean_name v →
  cached_entry out (pretty k, JStr v) = <[k:=v]> out.
Proof.
  intros Hk [Hv Hstrip]. unfold cached_entry. simpl.
  destruct (pretty_Z_digits k Hk) as [-> ->].
  rewrite Hstrip. simpl.
  by apply eqb_empty_false in Hv as ->.
Qed.

Lemma foldl_insert_list_to_map (l : list (Z * string)) (acc : gmap Z string) :
  foldl (λ m kv, <[kv.1:=kv.2]> m) acc l = list_to_map (reverse l) ∪ acc.
Proof.
  induction l as [|kv l IH] using rev_ind; simpl.
  { by rewrite (left_id_L ∅ (∪)). }
  rewrite foldl_app, reverse_snoc. simpl.
  by rewrite IH, insert_union_l.
Qed.

Lemma cached_entries_roundtrip (m : gmap Z string) :
  map_Forall (λ k v, 0 ≤ k ∧ clean_name v) m →
  foldl cached_entry ∅ ((λ kv : Z * string, (pretty kv.1, JStr kv.2)) <$> map_to_list m)
  = m.
Proof.
  intros Hm. apply map_Forall_to_list in Hm.
  assert (∀ l acc, Forall (uncurry (λ k v, 0 ≤ k ∧ clean_name v)) l →
            foldl cached_entry acc
              ((λ kv : Z * string, (pretty kv.1, JStr kv.2)) <$> l)
            = foldl (λ m kv, <[kv.1:=kv.2]> m) acc l) as Hfold.
  { induction l as [|[k v] l IH]; intros acc Hl; simpl; [done|].
    inversion Hl as [|? ? Hkv Hl']; subst. simpl in Hkv. destruct Hkv as [Hk Hv].
    rewrite cached_entry_roundtrip by done. by apply IH. }
  rewrite Hfold by done.
  rewrite foldl_insert_list_to_map, (right_id_L ∅ (∪)).
  symmetry. apply list_to_map_flip. by rewrite reverse_Permutation.
Qed.

Lemma cache_obj_read_back (url : string) (now : Qc) (ttl_s : Z)
    (mapping : gmap Z string) :
  map_Forall (λ k v, 0 ≤ k ∧ clean_name v) mapping →
  read_cache (Content (Ret (cache_obj url now ttl_s mapping)))
    = Cached mapping (Some (int_of_float now)) (Some ttl_s).
Proof.
  intros Hm. unfold read_cache, cache_obj.
  change (dict_get _ "data")
    with (JDict ((λ kv : Z * string, (pretty kv.1, JStr kv.2)) <$> map_to_list mapping)).
  change (dict_get _ "fetched_at") with (JInt (int_of_float now)).
  change (dict_get _ "ttl") with (JInt ttl_s).
  simpl. by rewrite cached_entries_roundtrip.
Qed.

(** X21: the cache file the loader writes reads back as it was written:
    for a mapping with non-negative chain ids and clean names, reading the
    written object yields the same mapping, the second it was written at and
    the TTL it was written with. *)
Theorem X21_cache_write_read_round_trip (url : string) (now : Qc) (ttl_s : Z)
    (mapping : gmap Z string) :
  map_Forall (λ k v, 0 ≤ k ∧ clean_name v) mapping →
  read_cache (Content (Ret (cache_obj url now ttl_s mapping)))
    = Cached mapping (Some (int_of_float now)) (Some ttl_s).
Proof. apply cache_obj_read_back. Qed.

(** X21 (witness): one name under chain id 1. *)
Lemma X21_cache_round_trip_witness :
  read_cache (Content (Ret (cache_obj "u" (Q2Qc (2001 # 2)) 60 {[1 := "Ethereum Mainnet"]})))
    = Cached {[1 := "Ethereum Mainnet"]} (Some 1000) (Some 60).
Proof.
  apply (X21_cache_write_read_round_trip "u" (Q2Qc (2001 # 2)) 60).
  apply map_Forall_singleton. by vm_compute.
Defined.



(** ** Display helpers *)

Lemma table_names_nonempty (table : list (Z * string)) (id : Z) (v : string) :
  Forall (λ kv, kv.2 ≠ "") table →
  (list_to_map table : gmap Z string) !! id = Some v → v ≠ "".
Proof.
  intros Htable Hv. apply elem_of_list_to_map_2 in Hv.
  rewrite Forall_forall in Htable. by apply (Htable (id, v)).
Qed.

Lemma chain_name_in_nonempty (table : list (Z * string)) (names : gmap Z string)
    (chain_id : option Z) :
  Forall (λ kv, kv.2 ≠ "") table →
  map_Forall (λ _ v, clean_name v) names →
  chain_name_in (list_to_map table) names chain_id ≠ "".
Proof.
  intros Htable Hnames. unfold chain_name_in.
  destruct chain_id as [id|]; [|done].
  destruct (names !! id) as [name|] eqn:Hname.
  { by destruct (Hnames id name Hname). }
  destruct (list_to_map table !! id) as [v|] eqn:Hv; simpl; [|done].
  by eapply table_names_nonempty.
Qed.

(** X23: whatever the loader returned, in whatever world, the chain name
    either script derives from it is never the empty string: it is the
    ChainList name, the name of the built-in table, or "Unknown". *)
Theorem X23_chain_name_never_blank (url : string) (ttl_s timeout_s retries : Z)
    (backoff : Qc) (allow_stale : bool) (w : world) (chain_id : option Z) :
  ∃ names,
    (load_chainlist_name_map url ttl_s timeout_s retries backoff allow_stale w).1
      = Ret names ∧
    chain_name_from_chain_id names chain_id ≠ "" ∧
    chain_name_from_id names chain_id ≠ "".
Proof.
  destruct (load_result_valid url ttl_s timeout_s retries backoff allow_stale w)
    as (names & Hload & Hnames).
  exists names. split; [done|].
  unfold chain_name_from_chain_id, chain_name_from_id, static_names, avax_static_names.
  split; (apply chain_name_in_nonempty; [|done]);
    repeat first [apply List.Forall_nil | apply List.Forall_cons; [done|]].
Qed.

(** X24: the fields [seconds_to_human_readable] prints. For [inf] and [nan]
    the text is the infinity sign; otherwise the whole number of seconds,
    clamped at zero, splits into days, hours below 24, minutes below 60 and
    seconds below 60 that add up to it. *)
Theorem X24_seconds_fields (seconds : number) :
  match whole_seconds seconds with
  | None => seconds_to_human_readable seconds = "∞"
  | Some total =>
      0 ≤ total ∧
      let '(days, hours, minutes, secs) := split_seconds total in
      days * 86400 + hours * 3600 + minutes * 60 + secs = total ∧
      0 ≤ days ∧ 0 ≤ hours < 24 ∧ 0 ≤ minutes < 60 ∧ 0 ≤ secs < 60
  end.
Proof.
  assert (∀ total, 0 ≤ total →
            let '(days, hours, minutes, secs) := split_seconds total in
            days * 86400 + hours * 3600 + minutes * 60 + secs = total ∧
            0 ≤ days ∧ 0 ≤ hours < 24 ∧ 0 ≤ minutes < 60 ∧ 0 ≤ secs < 60) as Hsplit.
  { intros total Htotal. unfold split_seconds.
    pose proof (Z.div_mod total 86400 ltac:(lia)).
    pose proof (Z.mod_pos_bound total 86400 ltac:(lia)).
    pose proof (Z.div_mod (total mod 86400) 3600 ltac:(lia)).
    pose proof (Z.mod_pos_bound (total mod 86400) 3600 ltac:(lia)).
    pose proof (Z.div_mod ((total mod 86400) mod 3600) 60 ltac:(lia)).
    pose proof (Z.mod_pos_bound ((total mod 86400) mod 3600) 60 ltac:(lia)).
    pose proof (Z.div_pos total 86400 ltac:(lia) ltac:(lia)).
    pose proof (Z.div_pos (total mod 86400) 3600 ltac:(lia) ltac:(lia)).
    pose proof (Z.div_pos ((total mod 86400) mod 3600) 60 ltac:(lia) ltac:(lia)).
    pose proof (Z.div_lt_upper_bound (total mod 86400) 3600 24 ltac:(lia) ltac:(lia)).
    pose proof (Z.div_lt_upper_bound ((total mod 86400) mod 3600) 60 60
                  ltac:(lia) ltac:(lia)).
    lia. }
  destruct seconds as [n|[q| | |]]; simpl; try done.
  - destruct (Z.ltb_spec n 0); (split; [lia|apply Hsplit; lia]).
  - destruct (Z.ltb_spec (int_of_float q) 0); (split; [lia|apply Hsplit; lia]).
Qed.

(** X25: below one minute the text is the number of whole seconds followed
    by "s", with no minute, hour or day field; negative durations show as
    "0s". *)
Theorem X25_short_durations (seconds : number) (total : Z) :
  whole_seconds seconds = Some total →
  total < 60 →
  seconds_to_human_readable seconds = pretty total +:+ "s".
Proof.
  intros Hwhole Hsmall.
  assert (0 ≤ total) as Hpos.
  { destruct seconds as [n|[q| | |]]; simpl in Hwhole; simplify_eq;
      by case_match; lia. }
  unfold seconds_to_human_readable. rewrite Hwhole. unfold split_seconds.
  rewrite (Z.div_small total 86400), (Z.mod_small total 86400) by lia.
  rewrite (Z.div_small total 3600), (Z.mod_small total 3600) by lia.
  rewrite (Z.div_small total 60), (Z.mod_small total 60) by lia.
  done.
Qed.

(** X25 (witness): minus three and a half seconds. *)
Lemma X25_short_durations_witness :
  seconds_to_human_readable (NFloat (Finite (Q2Qc (-7 # 2)))) = "0s".
Proof. by apply (X25_short_durations _ 0). Defined.
